(** * Verification of app.py: retrying fetch, link extraction, result scraping
      and the bounded fan-out over the result pages.

    The Python functions are embedded shallowly.  Effects (GET requests,
    sleeps, printed lines, Streamlit error boxes) are recorded as a trace of
    events; raised exceptions are values.  The network is a fixture: a
    function from a URL and the index of the attempt inside one call of
    [fetch_with_retries] to what [session.get] does. *)

From Stdlib Require Import ZArith Lia String Ascii List Bool.
From stdpp Require Import base tactics option list strings pretty relations gmap.
Import ListNotations.

Local Open Scope string_scope.
Local Open Scope list_scope.

(** ** Exceptions *)

(** The exception classes that the code paths can meet.  [ClientError] and
    [ClientResponseError] are aiohttp's ([ClientResponseError] derives from
    [ClientError] and is what [raise_for_status] raises); [TimeoutError] is
    [asyncio.TimeoutError], raised when the total timeout of the session
    runs out; it and the others derive from [Exception] only. *)
Inductive exn : Type :=
| ClientError (what : string)
| ClientResponseError (status : Z)
| TimeoutError
| ValueError (what : string)
| TypeError (what : string)
| KeyError (key : string)
| OtherException (what : string).

(** [isinstance(e, aiohttp.ClientError)], the test of the [except] clause of
    [fetch_with_retries]. *)
Definition is_ClientError (e : exn) : bool :=
  match e with
  | ClientError _ | ClientResponseError _ => true
  | _ => false
  end.

(** ** Effects *)

Inductive event : Type :=
| EvGet (url : string)             (* session.get(url, headers=...) *)
| EvSleep (secs : Z)               (* await asyncio.sleep(secs) *)
| EvPrint (url : string) (e : exn)  (* print(f"An unexpected error ... for {url}: {e}") *)
| EvExcluded (url : string)        (* print(f"Excluded: {url}") *)
| EvStError (e : exn).             (* st.error(f"Failed to fetch data: {e}") *)

(** A computation emits events and then returns a value or raises. *)
Definition M (A : Type) : Type := list event * (exn + A).

Definition ret {A} (a : A) : M A := ([], inr a).
Definition raise {A} (e : exn) : M A := ([], inl e).
Definition emit (ev : event) : M unit := ([ev], inr tt).
Definition bind {A B} (m : M A) (k : A -> M B) : M B :=
  match m with
  | (t, inl e) => (t, inl e)
  | (t, inr a) => let '(t', r) := k a in (t ++ t', r)
  end.
(** [try: m  except Exception as e: h e] *)
Definition try_except {A} (m : M A) (h : exn -> M A) : M A :=
  match m with
  | (t, inl e) => let '(t', r) := h e in (t ++ t', r)
  | (t, inr a) => (t, inr a)
  end.
Definition lift {A} (r : exn + A) : M A := ([], r).

Notation "'let*' x := m 'in' k" := (bind m (fun x => k))
  (at level 10, x name, m at level 100, k at level 200).
Notation "m >> k" := (bind m (fun _ => k))
  (at level 100, k at level 200, right associativity).

Definition trace_of {A} (m : M A) : list event := fst m.
Definition result_of {A} (m : M A) : exn + A := snd m.

(** Number of GET requests and the sleeps of a trace. *)
Fixpoint gets (t : list event) : nat :=
  match t with
  | [] => 0
  | EvGet _ :: t' => S (gets t')
  | _ :: t' => gets t'
  end.
Fixpoint sleeps (t : list event) : list Z :=
  match t with
  | [] => []
  | EvSleep d :: t' => d :: sleeps t'
  | _ :: t' => sleeps t'
  end.

(** ** The network fixture *)

(** What one [session.get] does: it raises, or it yields a response with a
    status whose [text()] returns the body or raises. *)
Inductive reply : Type :=
| GetRaises (e : exn)
| Response (status : Z) (text : exn + string).

Definition network : Type := string -> nat -> reply.

(** ** fetch_with_retries (app.py 16-27) *)

(** What the body of the [try] makes of a reply: [session.get] raises, or
    [response.raise_for_status()] raises [ClientResponseError] when the
    status is 400 or above, or [await response.text()] returns or raises. *)
Definition reply_outcome (r : reply) : exn + string :=
  match r with
  | GetRaises e => inl e
  | Response status text =>
      if (400 <=? status)%Z then inl (ClientResponseError status) else text
  end.

Definition attempt_once (net : network) (url : string) (attempt : Z) : M string :=
  emit (EvGet url) >> lift (reply_outcome (net url (Z.to_nat attempt))).

(** The [for attempt in range(retries)] loop; [todo] counts the iterations
    left and [attempt] is the loop variable.  Falling out of the loop
    returns [None]. *)
Fixpoint fetch_loop (net : network) (url : string) (retries backoff_factor : Z)
    (todo : nat) (attempt : Z) : M (option string) :=
  match todo with
  | O => ret None
  | S todo' =>
      try_except
        (let* body := attempt_once net url attempt in ret (Some body))
        (fun e =>
           if is_ClientError e then
             if (attempt <? retries - 1)%Z then
               emit (EvSleep (backoff_factor ^ attempt)%Z) >>
               fetch_loop net url retries backoff_factor todo' (attempt + 1)%Z
             else raise e
           else raise e)
  end.

Definition fetch_with_retries (net : network) (url : string)
    (retries backoff_factor : Z) : M (option string) :=
  fetch_loop net url retries backoff_factor (Z.to_nat retries) 0%Z.

Definition default_retries : Z := 3.
Definition default_backoff_factor : Z := 2.

(** The delays [backoff_factor ** i] for [i = from, ..., from + n - 1]. *)
Fixpoint backoff_delays (backoff_factor : Z) (from : Z) (n : nat) : list Z :=
  match n with
  | O => []
  | S n' => (backoff_factor ^ from)%Z :: backoff_delays backoff_factor (from + 1)%Z n'
  end.

(** The reply makes the [try] body raise an [aiohttp.ClientError]. *)
Definition client_error_reply (r : reply) : bool :=
  match reply_outcome r with
  | inl e => is_ClientError e
  | inr _ => false
  end.

(** The events of [n] failed attempts from attempt [from] on, each followed
    by its sleep. *)
Fixpoint failed_attempts (url : string) (backoff_factor : Z) (from : Z) (n : nat)
  : list event :=
  match n with
  | O => []
  | S n' =>
      EvGet url :: EvSleep (backoff_factor ^ from)%Z ::
      failed_attempts url backoff_factor (from + 1)%Z n'
  end.

(** The error classes as the specification names them: a connection
    failure, a timeout or a server-side status is transient. *)
Definition spec_transient (r : reply) : bool :=
  match r with
  | GetRaises (ClientError _) => true
  | GetRaises TimeoutError => true
  | GetRaises _ => false
  | Response status _ => (500 <=? status)%Z
  end.

(** ** Strings as Python uses them *)

(** A string stands for the Python [str] with the same code points, one
    character for each; all code points are below 256. *)

(** [sub in s] *)
Fixpoint contains (sub s : string) : bool :=
  String.prefix sub s ||
  match s with
  | EmptyString => false
  | String _ s' => contains sub s'
  end.

(** [s.find(c)] *)
Fixpoint find_char (c : ascii) (s : string) : option nat :=
  match s with
  | EmptyString => None
  | String a s' => if Ascii.eqb a c then Some 0 else S <$> find_char c s'
  end.

Definition has_char (c : ascii) (s : string) : bool :=
  match find_char c s with Some _ => true | None => false end.

(** [s.split(c, 1)] when [c in s]: the text before and after the first [c]. *)
Fixpoint split_first (c : ascii) (s : string) : string * string :=
  match s with
  | EmptyString => (EmptyString, EmptyString)
  | String a s' =>
      if Ascii.eqb a c then (EmptyString, s')
      else let '(l, r) := split_first c s' in (String a l, r)
  end.

Definition is_upper (a : ascii) : bool :=
  let n := nat_of_ascii a in (65 <=? n)%nat && (n <=? 90)%nat.
Definition is_lower (a : ascii) : bool :=
  let n := nat_of_ascii a in (97 <=? n)%nat && (n <=? 122)%nat.
Definition is_digit (a : ascii) : bool :=
  let n := nat_of_ascii a in (48 <=? n)%nat && (n <=? 57)%nat.
Definition is_alpha (a : ascii) : bool := is_upper a || is_lower a.
Definition lower_char (a : ascii) : ascii :=
  if is_upper a then ascii_of_nat (nat_of_ascii a + 32) else a.
Fixpoint lower (s : string) : string :=
  match s with
  | EmptyString => EmptyString
  | String a s' => String (lower_char a) (lower s')
  end.
Fixpoint all_chars (p : ascii -> bool) (s : string) : bool :=
  match s with
  | EmptyString => true
  | String a s' => p a && all_chars p s'
  end.
Fixpoint filter_chars (p : ascii -> bool) (s : string) : string :=
  match s with
  | EmptyString => EmptyString
  | String a s' => if p a then String a (filter_chars p s') else filter_chars p s'
  end.
Fixpoint lstrip_chars (p : ascii -> bool) (s : string) : string :=
  match s with
  | EmptyString => EmptyString
  | String a s' => if p a then lstrip_chars p s' else s
  end.
Definition starts_with (p s : string) : bool := String.prefix p s.
Fixpoint drop_chars (n : nat) (s : string) : string :=
  match n, s with
  | O, _ => s
  | S n', String _ s' => drop_chars n' s'
  | S _, EmptyString => EmptyString
  end.
Fixpoint take_chars (n : nat) (s : string) : string :=
  match n, s with
  | O, _ => EmptyString
  | S n', String a s' => String a (take_chars n' s')
  | S _, EmptyString => EmptyString
  end.
(** A string is truthy when it is not empty. *)
Definition truthy (s : string) : bool :=
  match s with EmptyString => false | _ => true end.
Definition in_list (s : string) (l : list string) : bool :=
  existsb (String.eqb s) l.

(** [s.split(c)] for a separator of one character: never empty. *)
Fixpoint split_on (c : ascii) (s : string) : list string :=
  match s with
  | EmptyString => [EmptyString]
  | String a s' =>
      if Ascii.eqb a c then EmptyString :: split_on c s'
      else match split_on c s' with
           | x :: xs => String a x :: xs
           | [] => [String a EmptyString]
           end
  end.

(** [s.partition(c)]: the text before the first [c], whether [c] occurs,
    and the text after it. *)
Definition partition (c : ascii) (s : string) : string * bool * string :=
  if has_char c s
  then let '(l, r) := split_first c s in (l, true, r)
  else (s, false, EmptyString).

(** [s.rpartition(c)[2]]: the text after the last [c], all of [s] when [c]
    does not occur. *)
Fixpoint after_last (c : ascii) (s : string) : string :=
  match s with
  | EmptyString => EmptyString
  | String a s' =>
      if has_char c s' then after_last c s'
      else if Ascii.eqb a c then s' else s
  end.

Definition is_ascii (a : ascii) : bool := (nat_of_ascii a <? 128)%nat.

(** [repr(s)]: quoted, with the quote, the backslash and the characters
    that are not printable escaped. *)
Definition hex_digit (d : nat) : ascii :=
  if (d <? 10)%nat then ascii_of_nat (48 + d) else ascii_of_nat (87 + d).
Definition printable (a : ascii) : bool :=
  let n := nat_of_ascii a in
  ((32 <=? n)%nat && (n <=? 126)%nat) || ((161 <=? n)%nat && negb (n =? 173)%nat).
Definition repr_char (quote a : ascii) : string :=
  let n := nat_of_ascii a in
  if Ascii.eqb a quote || Ascii.eqb a "\" then String "\" (String a EmptyString)
  else if (n =? 9)%nat then "\t"
  else if (n =? 10)%nat then "\n"
  else if (n =? 13)%nat then "\r"
  else if printable a then String a EmptyString
  else String "\" (String "x" (String (hex_digit (n / 16))
                                 (String (hex_digit (n mod 16)) EmptyString))).
Fixpoint repr_body (quote : ascii) (s : string) : string :=
  match s with
  | EmptyString => EmptyString
  | String a s' => repr_char quote a +:+ repr_body quote s'
  end.
Definition repr (s : string) : string :=
  let quote : ascii :=
    if has_char "'" s && negb (has_char (ascii_of_nat 34) s)
    then ascii_of_nat 34 else "'"%char in
  String quote (repr_body quote s +:+ String quote EmptyString).

(** ** ipaddress.ip_address, as [urlsplit] uses it *)

Definition is_hex_digit (a : ascii) : bool :=
  let n := nat_of_ascii a in
  is_digit a || ((65 <=? n)%nat && (n <=? 70)%nat)
  || ((97 <=? n)%nat && (n <=? 102)%nat).

(** [int(s, 10)] of a string of decimal digits. *)
Fixpoint decimal_value (acc : nat) (s : string) : nat :=
  match s with
  | EmptyString => acc
  | String a s' => decimal_value (acc * 10 + (nat_of_ascii a - 48)) s'
  end.

(** [IPv4Address._parse_octet]: [None] when it raises. *)
Definition parse_octet (octet_str : string) : option nat :=
  if negb (truthy octet_str) then None
  else if negb (all_chars is_digit octet_str) then None
  else if (3 <? String.length octet_str)%nat then None
  else if negb (String.eqb octet_str "0") && starts_with "0" octet_str then None
  else let octet_int := decimal_value 0 octet_str in
       if (255 <? octet_int)%nat then None else Some octet_int.

(** [IPv4Address(addr_str)]: the four octets, [None] when it raises. *)
Definition IPv4Address (addr_str : string) : option (nat * nat * nat * nat) :=
  if has_char "/" addr_str then None
  else if negb (truthy addr_str) then None
  else match map parse_octet (split_on "." addr_str) with
       | [Some a; Some b; Some c; Some d] => Some (a, b, c, d)
       | _ => None
       end.

(** ['%x' % n] for [n < 65536]. *)
Definition hex_of (n : nat) : string :=
  let digits :=
    String (hex_digit (n / 4096))
      (String (hex_digit (n / 256 mod 16))
         (String (hex_digit (n / 16 mod 16)) EmptyString)) in
  lstrip_chars (fun a => Ascii.eqb a "0") digits
    +:+ String (hex_digit (n mod 16)) EmptyString.

(** [IPv6Address._parse_hextet] does not raise. *)
Definition hextet_ok (hextet_str : string) : bool :=
  all_chars is_hex_digit hextet_str
  && (String.length hextet_str <=? 4)%nat
  && truthy hextet_str.

(** [IPv6Address._ip_int_from_string] does not raise. *)
Definition ipv6_int_ok (ip_str : string) : bool :=
  if negb (truthy ip_str) then false
  else
    let parts := split_on ":" ip_str in
    if (length parts <? 3)%nat then false
    else
      let last_part := List.last parts EmptyString in
      match (if has_char "." last_part
             then match IPv4Address last_part with
                  | Some (a, b, c, d) =>
                      Some (removelast parts
                              ++ [hex_of (a * 256 + b); hex_of (c * 256 + d)])
                  | None => None
                  end
             else Some parts) with
      | None => false
      | Some parts =>
          let n := length parts in
          if (9 <? n)%nat then false
          else
            let first_empty := negb (truthy (List.hd EmptyString parts)) in
            let last_empty := negb (truthy (List.last parts EmptyString)) in
            match List.filter (fun i => negb (truthy (List.nth i parts EmptyString)))
                              (seq 1 (n - 2)) with
            | [] =>
                (n =? 8)%nat && negb first_empty && negb last_empty
                && forallb hextet_ok parts
            | [skip_index] =>
                let parts_hi := if first_empty then skip_index - 1 else skip_index in
                let parts_lo :=
                  if last_empty then n - skip_index - 1 - 1 else n - skip_index - 1 in
                (if first_empty then (parts_hi =? 0)%nat else true)
                && (if last_empty then (parts_lo =? 0)%nat else true)
                && (parts_hi + parts_lo <? 8)%nat
                && forallb hextet_ok (take parts_hi parts)
                && forallb hextet_ok (drop (n - parts_lo) parts)
            | _ => false
            end
      end.

(** [IPv6Address(addr_str)] does not raise: no slash, a scope id that is
    not empty and has no second percent sign, and a valid address. *)
Definition IPv6Address_ok (addr_str : string) : bool :=
  if has_char "/" addr_str then false
  else
    let '(addr, sep, scope_id) := partition "%" addr_str in
    if sep && (negb (truthy scope_id) || has_char "%" scope_id) then false
    else ipv6_int_ok addr.

Inductive ip_version : Type := IPv4 | IPv6.

(** [ipaddress.ip_address(address)]: [None] when it raises [ValueError]. *)
Definition ip_address (address : string) : option ip_version :=
  match IPv4Address address with
  | Some _ => Some IPv4
  | None => if IPv6Address_ok address then Some IPv6 else None
  end.

(** ** urllib.parse.urlparse and ParseResult.geturl *)

(** The model follows [urllib/parse.py] of CPython 3.11 function by function:
    [urlsplit], [_splitnetloc], [_check_bracketed_netloc],
    [_check_bracketed_host], [_checknetloc], [_splitparams], [urlunsplit]. *)
Record ParseResult : Type := mkParseResult {
  scheme : string;
  netloc : string;
  path : string;
  params : string;
  query : string;
  fragment : string
}.

Definition scheme_char (a : ascii) : bool :=
  is_alpha a || is_digit a ||
  Ascii.eqb a "+" || Ascii.eqb a "-" || Ascii.eqb a ".".

Definition uses_params : list string :=
  [""; "ftp"; "hdl"; "prospero"; "http"; "imap"; "https"; "shttp"; "rtsp";
   "rtspu"; "sip"; "sips"; "mms"; "sftp"; "tel"].
Definition uses_netloc : list string :=
  [""; "ftp"; "http"; "gopher"; "nntp"; "telnet"; "imap"; "wais"; "file";
   "mms"; "https"; "shttp"; "snews"; "prospero"; "rtsp"; "rtspu"; "rsync";
   "svn"; "svn+ssh"; "sftp"; "nfs"; "git"; "git+ssh"; "ws"; "wss"].

(** Leading C0 control characters and spaces are stripped; tab, line feed
    and carriage return are removed everywhere. *)
Definition c0_or_space (a : ascii) : bool := (nat_of_ascii a <=? 32)%nat.
Definition unsafe_byte (a : ascii) : bool :=
  let n := nat_of_ascii a in (n =? 9)%nat || (n =? 10)%nat || (n =? 13)%nat.

(** [scheme, url = url[:i].lower(), url[i+1:]] when the text before the
    first colon is a scheme. *)
Definition split_scheme (url : string) : string * string :=
  match find_char ":" url with
  | Some (S i') =>
      let i := S i' in
      let head := take_chars i url in
      match url with
      | String a _ =>
          if is_alpha a && all_chars scheme_char head
          then (lower head, drop_chars (S i) url)
          else (EmptyString, url)
      | EmptyString => (EmptyString, url)
      end
  | _ => (EmptyString, url)
  end.

(** [_splitnetloc(url, 2)]: the netloc runs up to the first of [/ ? #]. *)
Fixpoint splitnetloc (s : string) : string * string :=
  match s with
  | EmptyString => (EmptyString, EmptyString)
  | String a s' =>
      if Ascii.eqb a "/" || Ascii.eqb a "?" || Ascii.eqb a "#"
      then (EmptyString, s)
      else let '(n, r) := splitnetloc s' in (String a n, r)
  end.

Definition split_if (c : ascii) (s : string) : string * string :=
  if has_char c s then split_first c s else (s, EmptyString).

(** [re.match(r"\Av[a-fA-F0-9]+\..+\Z", hostname)] for a hostname that
    starts with "v": hexadecimal digits, a dot, and at least one more
    character, none of them a line feed. *)
Definition ipvfuture_match (hostname : string) : bool :=
  let rest := lstrip_chars is_hex_digit (drop_chars 1 hostname) in
  negb (String.eqb rest (drop_chars 1 hostname))
  && starts_with "." rest
  && truthy (drop_chars 1 rest)
  && all_chars (fun a => negb (nat_of_ascii a =? 10)%nat) (drop_chars 1 rest).

(** [_check_bracketed_host(hostname)]: the exception it raises, if any. *)
Definition check_bracketed_host (hostname : string) : option exn :=
  if starts_with "v" hostname then
    if ipvfuture_match hostname then None
    else Some (ValueError "IPvFuture address is invalid")
  else
    match ip_address hostname with
    | None =>
        Some (ValueError (repr hostname
                            +:+ " does not appear to be an IPv4 or IPv6 address"))
    | Some IPv4 => Some (ValueError "An IPv4 address cannot be in brackets")
    | Some IPv6 => None
    end.

(** [_check_bracketed_netloc(netloc)]: the exception it raises, if any. *)
Definition check_bracketed_netloc (nl : string) : option exn :=
  let hostname_and_port := after_last "@" nl in
  let '(before_bracket, have_open_br, bracketed) := partition "[" hostname_and_port in
  if have_open_br then
    if truthy before_bracket then Some (ValueError "Invalid IPv6 URL")
    else
      let '(hostname, _, port) := partition "]" bracketed in
      if truthy port && negb (starts_with ":" port)
      then Some (ValueError "Invalid IPv6 URL")
      else check_bracketed_host hostname
  else
    let '(hostname, _, _) := partition ":" hostname_and_port in
    check_bracketed_host hostname.

(** [unicodedata.normalize('NFKC', c)] for one character below 256, as code
    points; on such characters the normal form of a string is the normal
    forms of its characters one after the other. *)
Definition nfkc_char (a : ascii) : list N :=
  let n := N_of_ascii a in
  if (n =? 160)%N then [32%N]
  else if (n =? 168)%N then [32%N; 776%N]
  else if (n =? 170)%N then [97%N]
  else if (n =? 175)%N then [32%N; 772%N]
  else if (n =? 178)%N then [50%N]
  else if (n =? 179)%N then [51%N]
  else if (n =? 180)%N then [32%N; 769%N]
  else if (n =? 181)%N then [956%N]
  else if (n =? 184)%N then [32%N; 807%N]
  else if (n =? 185)%N then [49%N]
  else if (n =? 186)%N then [111%N]
  else if (n =? 188)%N then [49%N; 8260%N; 52%N]
  else if (n =? 189)%N then [49%N; 8260%N; 50%N]
  else if (n =? 190)%N then [51%N; 8260%N; 52%N]
  else [n].
Fixpoint nfkc (s : string) : list N :=
  match s with
  | EmptyString => []
  | String a s' => nfkc_char a ++ nfkc s'
  end.
Fixpoint code_points (s : string) : list N :=
  match s with
  | EmptyString => []
  | String a s' => N_of_ascii a :: code_points s'
  end.

(** [_checknetloc(netloc)]: the exception it raises, if any. *)
Definition checknetloc (nl : string) : option exn :=
  if negb (truthy nl) || all_chars is_ascii nl then None
  else
    let n := filter_chars
               (fun a => negb (Ascii.eqb a "@" || Ascii.eqb a ":"
                               || Ascii.eqb a "#" || Ascii.eqb a "?")) nl in
    let netloc2 := nfkc n in
    if forallb (fun '(x, y) => (x =? y)%N) (zip (code_points n) netloc2)
       && (length (code_points n) =? length netloc2)%nat
    then None
    else if existsb (fun c => existsb (N.eqb c) netloc2) [47%N; 63%N; 35%N; 64%N; 58%N]
    then Some (ValueError ("netloc '" +:+ nl +:+
                           "' contains invalid characters under NFKC normalization"))
    else None.

Definition urlsplit (url0 : string)
  : exn + (string * string * string * string * string) :=
  let url := filter_chars (fun a => negb (unsafe_byte a))
               (lstrip_chars c0_or_space url0) in
  let '(sch, url) := split_scheme url in
  let '(nl, url) :=
    if starts_with "//" url then splitnetloc (drop_chars 2 url)
    else (EmptyString, url) in
  if xorb (has_char "[" nl) (has_char "]" nl)
  then inl (ValueError "Invalid IPv6 URL")
  else
    match (if has_char "[" nl && has_char "]" nl
           then check_bracketed_netloc nl else None) with
    | Some e => inl e
    | None =>
        let '(url, frag) := split_if "#" url in
        let '(url, qry) := split_if "?" url in
        match checknetloc nl with
        | Some e => inl e
        | None => inr (sch, nl, url, qry, frag)
        end
    end.

(** [url.rfind('/')] as the text up to and including the last slash and the
    text after it. *)
Fixpoint rsplit_slash (s : string) : option (string * string) :=
  match s with
  | EmptyString => None
  | String a s' =>
      match rsplit_slash s' with
      | Some (l, r) => Some (String a l, r)
      | None => if Ascii.eqb a "/" then Some (String a EmptyString, s') else None
      end
  end.

Definition splitparams (url : string) : string * string :=
  match rsplit_slash url with
  | Some (dir, last) =>
      if has_char ";" last
      then let '(l, r) := split_first ";" last in (dir +:+ l, r)
      else (url, EmptyString)
  | None => split_first ";" url
  end.

Definition urlparse (url : string) : exn + ParseResult :=
  match urlsplit url with
  | inl e => inl e
  | inr (sch, nl, p, qry, frag) =>
      let '(p, prm) :=
        if in_list sch uses_params && has_char ";" p then splitparams p
        else (p, EmptyString) in
      inr (mkParseResult sch nl p prm qry frag)
  end.

Definition urlunsplit (sch nl url qry frag : string) : string :=
  let url :=
    if truthy nl ||
       (truthy sch && in_list sch uses_netloc && negb (starts_with "//" url))
    then "//" +:+ nl ++
         (if truthy url && negb (starts_with "/" url) then "/" +:+ url else url)
    else url in
  let url := if truthy sch then sch +:+ ":" +:+ url else url in
  let url := if truthy qry then url +:+ "?" +:+ qry else url in
  if truthy frag then url +:+ "#" +:+ frag else url.

Definition geturl (r : ParseResult) : string :=
  urlunsplit (scheme r) (netloc r)
    (if truthy (params r) then path r +:+ ";" +:+ params r else path r)
    (query r) (fragment r).

(** ** The parse tree of BeautifulSoup *)

(** An element with its attributes and child elements, in document order.
    Text nodes play no part in the queries of app.py. *)
#[local] Unset Elimination Schemes.
Inductive tag : Type :=
| Tag (name : string) (attrs : list (string * string)) (children : list tag).
#[local] Set Elimination Schemes.

Definition tag_name (t : tag) : string := let 'Tag n _ _ := t in n.
Definition tag_attrs (t : tag) : list (string * string) := let 'Tag _ a _ := t in a.

(** [t.get(key)] *)
Fixpoint assoc_get (key : string) (l : list (string * string)) : option string :=
  match l with
  | [] => None
  | (k, v) :: l' => if String.eqb k key then Some v else assoc_get key l'
  end.
Definition tag_get (t : tag) (key : string) : option string :=
  assoc_get key (tag_attrs t).

(** All elements below [t], in document order. *)
Fixpoint descendants (t : tag) : list tag :=
  match t with
  | Tag _ _ cs =>
      (fix go (l : list tag) : list tag :=
         match l with
         | [] => []
         | c :: l' => c :: descendants c ++ go l'
         end) cs
  end.

(** The class attribute is a list of names separated by white space. *)
Definition is_space (a : ascii) : bool :=
  let n := nat_of_ascii a in
  ((9 <=? n)%nat && (n <=? 13)%nat) || ((28 <=? n)%nat && (n <=? 32)%nat)
  || (n =? 133)%nat || (n =? 160)%nat.
Fixpoint words_aux (cur : string) (s : string) : list string :=
  match s with
  | EmptyString => if truthy cur then [cur] else []
  | String a s' =>
      if is_space a
      then (if truthy cur then [cur] else []) ++ words_aux EmptyString s'
      else words_aux (cur +:+ String a EmptyString) s'
  end.
Definition classes (t : tag) : list string :=
  match tag_get t "class" with
  | Some v => words_aux EmptyString v
  | None => []
  end.

(** [soup.find_all(name)], [soup.find_all(name, class_=c)], [t.find(name)] *)
Definition find_all (name : string) (t : tag) : list tag :=
  filter (fun d => String.eqb (tag_name d) name = true) (descendants t).
Definition find_all_class (name c : string) (t : tag) : list tag :=
  filter (fun d => (String.eqb (tag_name d) name && in_list c (classes d)) = true)
         (descendants t).
Definition find (name : string) (t : tag) : option tag :=
  head (find_all name t).

(** [BeautifulSoup(markup, "html.parser")]: the parser is a parameter. *)
Definition html_parser : Type := string -> exn + tag.

(** The world a run sees: the network fixture and the HTML parser. *)
Record world : Type := mkWorld {
  net : network;
  BeautifulSoup : html_parser
}.

(** [BeautifulSoup(html_content, ...)] on what [fetch_with_retries]
    returned; [None] has no length. *)
Definition make_soup (w : world) (html_content : option string) : M tag :=
  match html_content with
  | Some html => lift (BeautifulSoup w html)
  | None => raise (TypeError "object of type 'NoneType' has no len()")
  end.

(** ** get_external_links (app.py 50-66) *)

(** The test of line 59, [href and "http" in href]. *)
Definition href_candidate (href : option string) : bool :=
  match href with
  | Some h => truthy h && contains "http" h
  | None => false
  end.

(** The [for link in all_links] loop.  [external_links] is the list the
    loop appends to; the loop stops at the first exception and leaves the
    list as it is then. *)
Fixpoint links_loop (url : string) (search_result_domains : gset string)
    (all_links : list tag) (external_links : list string)
  : list string * option exn :=
  match all_links with
  | [] => (external_links, None)
  | link :: rest =>
      let href := tag_get link "href" in
      if href_candidate href then
        match urlparse (default EmptyString href) with
        | inl e => (external_links, Some e)
        | inr parsed_href =>
            match urlparse url with
            | inl e => (external_links, Some e)
            | inr parsed_website =>
                if negb (String.eqb (netloc parsed_href) (netloc parsed_website))
                   && bool_decide (netloc parsed_href ∈ search_result_domains)
                then links_loop url search_result_domains rest
                       (external_links ++ [geturl parsed_href])
                else links_loop url search_result_domains rest external_links
            end
        end
      else links_loop url search_result_domains rest external_links
  end.

Definition get_external_links (w : world) (url : string)
    (search_result_domains : gset string) : M (list string) :=
  match
    (let* html_content :=
       fetch_with_retries (net w) url default_retries default_backoff_factor in
     make_soup w html_content)
  with
  | (t, inl e) => (t ++ [EvPrint url e], inr [])
  | (t, inr soup) =>
      match links_loop url search_result_domains (find_all "a" soup) [] with
      | (external_links, Some e) => (t ++ [EvPrint url e], inr external_links)
      | (external_links, None) => (t, inr external_links)
      end
  end.

(** ** scrape_google_search_results (app.py 29-48) *)

(** [result.find("a")["href"]]: subscripting [None] is a [TypeError], a
    missing attribute a [KeyError]. *)
Definition primary_link (result : tag) : M string :=
  match find "a" result with
  | None => raise (TypeError "'NoneType' object is not subscriptable")
  | Some a =>
      match tag_get a "href" with
      | None => raise (KeyError "href")
      | Some h => ret h
      end
  end.

(** [any(website in u for website in exclude_websites)] *)
Definition excluded (exclude_websites : list string) (u : string) : bool :=
  existsb (fun website => contains website u) exclude_websites.

Fixpoint results_loop (exclude_websites : list string)
    (search_results : list tag) (result_urls : list string) : M (list string) :=
  match search_results with
  | [] => ret result_urls
  | result :: rest =>
      let* link := primary_link result in
      let* parsed_link := lift (urlparse link) in
      if negb (excluded exclude_websites (geturl parsed_link))
      then results_loop exclude_websites rest (result_urls ++ [link])
      else emit (EvExcluded (geturl parsed_link)) >>
           results_loop exclude_websites rest result_urls
  end.

Definition search_url (query : string) (num_results : Z) (lang : string) : string :=
  "https://www.google.com/search?q=" +:+ query +:+ "&num=" +:+ pretty num_results
    +:+ "&gl=" +:+ lang.

Definition scrape_google_search_results (w : world) (query : string)
    (num_results : Z) (lang : string) (exclude_websites : list string)
  : M (list string) :=
  let url := search_url query num_results lang in
  try_except
    (let* html_content :=
       fetch_with_retries (net w) url default_retries default_backoff_factor in
     let* soup := make_soup w html_content in
     results_loop exclude_websites (find_all_class "div" "tF2Cxc" soup) [])
    (fun e => emit (EvStError e) >> ret []).

(** ** process_search_results (app.py 68-78) *)

Definition default_concurrency_limit : Z := 5.

(** [{urlparse(url).netloc for url in urls}] *)
Fixpoint search_result_domains (urls : list string) : exn + gset string :=
  match urls with
  | [] => inr ∅
  | url :: rest =>
      match urlparse url with
      | inl e => inl e
      | inr r =>
          match search_result_domains rest with
          | inl e => inl e
          | inr s => inr ({[ netloc r ]} ∪ s)
          end
      end
  end.

(** Lines 70-71: [asyncio.Semaphore] refuses a negative value, then the
    domain set is built. *)
Definition crawl_setup (urls : list string) (concurrency_limit : Z)
  : exn + gset string :=
  if (concurrency_limit <? 0)%Z
  then inl (ValueError "Semaphore initial value must be >= 0")
  else search_result_domains urls.

(** One task per URL.  A task waits at [async with semaphore], runs
    [get_external_links] while it holds a slot, and is done with what that
    call returned or raised. *)
Inductive task_state : Type :=
| Waiting
| Running
| Done (r : exn + list string).

Record crawl_state : Type := mkCrawl {
  sem_value : nat;             (* free slots of the semaphore *)
  tasks : list task_state;     (* position i is the task of urls[i] *)
  log : list event             (* events of the finished tasks *)
}.

Definition crawl_init (urls : list string) (concurrency_limit : Z) : crawl_state :=
  mkCrawl (Z.to_nat concurrency_limit) (replicate (length urls) Waiting) [].

(** The event loop picks what happens next: a waiting task takes a free
    slot, or a running task finishes and gives its slot back. *)
Inductive action : Type :=
| Acquire (i : nat)
| Finish (i : nat).

Definition step (w : world) (urls : list string) (domains : gset string)
    (a : action) (s : crawl_state) : option crawl_state :=
  match a with
  | Acquire i =>
      match tasks s !! i, sem_value s with
      | Some Waiting, S v => Some (mkCrawl v (<[i := Running]> (tasks s)) (log s))
      | _, _ => None
      end
  | Finish i =>
      match tasks s !! i, urls !! i with
      | Some Running, Some url =>
          let '(t, r) := get_external_links w url domains in
          Some (mkCrawl (S (sem_value s)) (<[i := Done r]> (tasks s)) (log s ++ t))
      | _, _ => None
      end
  end.

Fixpoint run (w : world) (urls : list string) (domains : gset string)
    (schedule : list action) (s : crawl_state) : option crawl_state :=
  match schedule with
  | [] => Some s
  | a :: rest =>
      match step w urls domains a s with
      | Some s' => run w urls domains rest s'
      | None => None
      end
  end.

(** Number of tasks inside [get_external_links]. *)
Definition is_running (t : task_state) : bool :=
  match t with Running => true | _ => false end.
Definition in_flight (s : crawl_state) : nat :=
  length (List.filter is_running (tasks s)).

(** [await asyncio.gather] over the tasks: once every task is done, the results in
    task order, or the exception of a task that raised. *)
Fixpoint gather (ts : list task_state) : option (exn + list (list string)) :=
  match ts with
  | [] => Some (inr [])
  | Done (inr links) :: rest =>
      match gather rest with
      | Some (inr ls) => Some (inr (links :: ls))
      | other => other
      end
  | Done (inl e) :: rest =>
      match gather rest with
      | Some _ => Some (inl e)
      | None => None
      end
  | _ :: _ => None
  end.

(** [process_search_results urls k] returns [rs] under the schedule. *)
Definition process_search_results (w : world) (urls : list string)
    (concurrency_limit : Z) (schedule : list action)
  : option (exn + list (list string)) :=
  match crawl_setup urls concurrency_limit with
  | inl e => Some (inl e)
  | inr domains =>
      match run w urls domains schedule (crawl_init urls concurrency_limit) with
      | Some s => gather (tasks s)
      | None => None
      end
  end.

(** The schedule that runs the tasks one after the other. *)
Definition one_by_one (n : nat) : list action :=
  flat_map (fun i => [Acquire i; Finish i]) (seq 0 n).


(** ** The extractor and the scraper, link by link *)

(** What the loop body of [get_external_links] adds for one anchor of a
    page whose own netloc is [page_netloc]. *)
Definition keeps (page_netloc : string) (domains : gset string) (link : tag)
  : option string :=
  let href := tag_get link "href" in
  if href_candidate href then
    match urlparse (default EmptyString href) with
    | inr r =>
        if negb (String.eqb (netloc r) page_netloc)
           && bool_decide (netloc r ∈ domains)
        then Some (geturl r) else None
    | inl _ => None
    end
  else None.

(** The anchor does not make [urlparse] raise on line 60. *)
Definition href_parses (link : tag) : Prop :=
  href_candidate (tag_get link "href") = true ->
  exists r, urlparse (default EmptyString (tag_get link "href")) = inr r.

(** The URL the scraper tests against the exclude list. *)
Definition reassembled (link : string) : string :=
  match urlparse link with
  | inr r => geturl r
  | inl _ => link
  end.

(** A result container whose first anchor carries [link], a URL that
    [urlparse] accepts. *)
Definition result_with_link (result : tag) (link : string) : Prop :=
  primary_link result = ret link /\ exists r, urlparse link = inr r.

(** The links of a crawl slot: what the task returned. *)
Definition links_of (m : M (list string)) : list string :=
  match result_of m with
  | inr l => l
  | inl _ => []
  end.

(** ** The filters in the words of the specification *)

(** A link is kept when its value is a complete URL with a scheme, its
    domain differs from the page's and belongs to the known set. *)
Definition spec_keeps (page_url : string) (domains : gset string) (href : string)
  : bool :=
  match urlparse href, urlparse page_url with
  | inr r, inr p =>
      truthy (scheme r) && truthy (netloc r)
      && negb (String.eqb (netloc r) (netloc p))
      && bool_decide (netloc r ∈ domains)
  | _, _ => false
  end.

(** The extractor returns the links that the three conditions keep. *)
Definition spec_extractor_claim (w : world) (page_url : string)
    (domains : gset string) (hrefs : list string) : Prop :=
  result_of (get_external_links w page_url domains) =
    inr (List.filter (spec_keeps page_url domains) hrefs).

(** The scraper omits a result exactly when its URL contains one of the
    exclude substrings. *)
Definition spec_scraper_claim (w : world) (query : string) (num_results : Z)
    (lang : string) (exclude_websites links : list string) : Prop :=
  result_of (scrape_google_search_results w query num_results lang exclude_websites) =
    inr (List.filter (fun u => negb (excluded exclude_websites u)) links).

(** A fetch that fails transiently fewer than [retries] times and then
    succeeds returns the body. *)
Definition spec_fetch_claim (net : network) (url : string) (retries b : Z)
    (n : nat) (body : string) : Prop :=
  (1 <= retries)%Z -> (Z.of_nat n < retries)%Z ->
  (forall i, i < n -> spec_transient (net url i) = true) ->
  reply_outcome (net url n) = inr body ->
  result_of (fetch_with_retries net url retries b) = inr (Some body).

(** The crawl of a list that is not empty returns one link list per URL. *)
Definition spec_crawl_claim (w : world) (urls : list string) (k : Z) : Prop :=
  urls <> [] -> (1 <= k)%Z ->
  exists schedule rs,
    process_search_results w urls k schedule = Some (inr rs) /\
    length rs = length urls.

(** A URL is returned as often as the page has anchors that pass the
    filter with it. *)
Definition spec_multiplicity_claim (w : world) (page_url : string)
    (domains : gset string) (page_netloc : string) (soup : tag) : Prop :=
  forall u : string,
    count_occ string_dec (links_of (get_external_links w page_url domains)) u =
      length (List.filter
                (fun link => bool_decide (keeps page_netloc domains link = Some u))
                (find_all "a" soup)).

(** ** The invariant of a crawl *)

(** What the task of [url] puts into its slot. *)
Definition slot (w : world) (domains : gset string) (url : string)
  : exn + list string :=
  snd (get_external_links w url domains).

(** With [limit] slots: one task per URL, the running tasks and the free
    slots add up to [limit], and a finished task holds the slot of its own
    URL. *)
Definition crawl_inv (w : world) (urls : list string) (domains : gset string)
    (limit : nat) (s : crawl_state) : Prop :=
  length (tasks s) = length urls /\
  in_flight s + sem_value s = limit /\
  forall i url r,
    urls !! i = Some url -> tasks s !! i = Some (Done r) -> r = slot w domains url.

(** [urlparse] accepts the URL. *)
Definition parses (url : string) : Prop := exists r, urlparse url = inr r.

(** Tasks that have not finished yet. *)
Definition is_done (t : task_state) : bool :=
  match t with Done _ => true | _ => false end.
Definition pending (s : crawl_state) : nat :=
  length (List.filter (fun t => negb (is_done t)) (tasks s)).

(** ** main_async: the exclude list and the result table (app.py 97, 125-154) *)

(** Characters are code points below 256; white space is what [str.isspace]
    accepts among them. *)
Definition py_isspace (a : ascii) : bool :=
  let n := nat_of_ascii a in
  ((9 <=? n)%nat && (n <=? 13)%nat) || ((28 <=? n)%nat && (n <=? 32)%nat)
  || (n =? 133)%nat || (n =? 160)%nat.

(** [s.rstrip()], [s.strip()] *)
Fixpoint rstrip_chars (p : ascii -> bool) (s : string) : string :=
  match s with
  | EmptyString => EmptyString
  | String a s' =>
      match rstrip_chars p s' with
      | EmptyString => if p a then EmptyString else String a EmptyString
      | rest => String a rest
      end
  end.
Definition strip (s : string) : string :=
  rstrip_chars py_isspace (lstrip_chars py_isspace s).

Definition newline : ascii := "010"%char.

(** [sep.join(l)] *)
Fixpoint join_with (sep : string) (l : list string) : string :=
  match l with
  | [] => EmptyString
  | [x] => x
  | x :: rest => x +:+ sep +:+ join_with sep rest
  end.

(** Line 97: [[line.strip() for line in exclude_input.split("\n") if line.strip()]] *)
Definition exclude_websites_of (exclude_input : string) : list string :=
  map strip (List.filter (fun line => truthy (strip line))
                         (split_on newline exclude_input)).

(** A row of the table: Position, URL, Filtered External Links. *)
Definition row : Type := Z * string * string.
Definition row_url (r : row) : string := snd (fst r).

(** Lines 125-135, for a dict from URL to link list: one row per URL,
    numbered from 1. *)
Fixpoint result_rows (idx : Z) (urls : list string)
    (filtered : gmap string (list string)) : list row :=
  match urls with
  | [] => []
  | url :: rest =>
      (match filtered !! url with
       | Some filtered_links =>
           match filtered_links with
           | _ :: _ => (idx, url, join_with (String newline EmptyString) filtered_links)
           | [] => (idx, url, "None")
           end
       | None => (idx, url, "N/A")
       end) :: result_rows (idx + 1)%Z rest filtered
  end.

(** Lines 140-150: a cell with line breaks becomes one row per line. *)
Fixpoint expand_rows (rows : list row) : list row :=
  match rows with
  | [] => []
  | (position, url, filtered_links) :: rest =>
      (if contains (String newline EmptyString) filtered_links
       then map (fun link => (position, url, link)) (split_on newline filtered_links)
       else [(position, url, filtered_links)])
      ++ expand_rows rest
  end.

(** Line 154: [duplicated("URL")] is true for a row whose URL occurs in an
    earlier row; such a row gets "#" appended to its URL. *)
Fixpoint mark_repeated (seen : list string) (rows : list row) : list row :=
  match rows with
  | [] => []
  | (position, url, links) :: rest =>
      (position, (if in_list url seen then url +:+ "#" else url), links)
      :: mark_repeated (url :: seen) rest
  end.

(** The text of the cell of a URL, line by line. *)
Definition cell_lines (links : option (list string)) : list string :=
  match links with
  | Some (l :: ls) => l :: ls
  | Some [] => ["None"]
  | None => ["N/A"]
  end.

(** ** Fixtures *)

(** A network that fails twice with a connection error and then answers. *)
Definition flaky_net : network :=
  fun _ n => if (n <? 2)%nat then GetRaises (ClientError "connection reset")
             else Response 200 (inr "body").

(** A network whose first request times out and whose second answers. *)
Definition timeout_once_net : network :=
  fun _ n => if (n =? 0)%nat then GetRaises TimeoutError
             else Response 200 (inr "body").

(** A network that answers every request with status 404. *)
Definition not_found_net : network :=
  fun _ _ => Response 404 (inr "Not Found").

(** A network that answers every request with the URL as the body. *)
Definition echo_net : network := fun url _ => Response 200 (inr url).

(** A page made of anchors, and a result page made of organic results. *)
Definition anchors_page (hrefs : list string) : tag :=
  Tag "[document]" [] (map (fun h => Tag "a" [("href", h)] []) hrefs).
Definition serp_page (hrefs : list string) : tag :=
  Tag "[document]" []
    (map (fun h => Tag "div" [("class", "g tF2Cxc")]
                     [Tag "div" [("class", "yuRUbf")] [Tag "a" [("href", h)] []]])
         hrefs).

(** Every body parses to the same page. *)
Definition static_world (page : tag) : world :=
  mkWorld echo_net (fun _ => inr page).

(** The two-site web of the specification's scenario. *)
Definition two_sites : world :=
  mkWorld echo_net (fun html =>
    if String.eqb html "https://a.com/x"
    then inr (anchors_page ["https://a.com/y"; "https://b.com/z"])
    else if String.eqb html "https://b.com/"
    then inr (anchors_page ["https://a.com/x"; "https://c.com/"])
    else inl (OtherException "no such page")).

Definition ab_domains : gset string := {[ "a.com"; "b.com" ]}.

(** * Properties *)

(** ** fetch_with_retries *)

Lemma gets_app t1 t2 : gets (t1 ++ t2) = gets t1 + gets t2.
Proof. induction t1 as [|[] t1 IH]; simpl; auto. Qed.

Lemma sleeps_app t1 t2 : sleeps (t1 ++ t2) = sleeps t1 ++ sleeps t2.
Proof. induction t1 as [|[] t1 IH]; simpl; auto. by rewrite IH. Qed.

Lemma gets_failed_attempts url b from n : gets (failed_attempts url b from n) = n.
Proof. revert from; induction n as [|n IH]; intros from; simpl; auto. Qed.

Lemma sleeps_failed_attempts url b from n :
  sleeps (failed_attempts url b from n) = backoff_delays b from n.
Proof. revert from; induction n as [|n IH]; intros from; simpl; auto. by rewrite IH. Qed.

Lemma attempt_once_eq net url attempt :
  attempt_once net url attempt = ([EvGet url], reply_outcome (net url (Z.to_nat attempt))).
Proof. reflexivity. Qed.

(** One iteration of the loop, by what the attempt gives. *)
Lemma fetch_loop_success net url retries b todo attempt body :
  reply_outcome (net url (Z.to_nat attempt)) = inr body ->
  fetch_loop net url retries b (S todo) attempt = ([EvGet url], inr (Some body)).
Proof. intros H. cbn [fetch_loop]. rewrite attempt_once_eq, H. reflexivity. Qed.

Lemma fetch_loop_other_error net url retries b todo attempt e :
  reply_outcome (net url (Z.to_nat attempt)) = inl e ->
  is_ClientError e = false ->
  fetch_loop net url retries b (S todo) attempt = ([EvGet url], inl e).
Proof.
  intros H He. cbn [fetch_loop]. rewrite attempt_once_eq, H.
  cbn [bind try_except]. rewrite He. reflexivity.
Qed.

Lemma fetch_loop_last_error net url retries b todo attempt e :
  reply_outcome (net url (Z.to_nat attempt)) = inl e ->
  is_ClientError e = true ->
  (retries - 1 <= attempt)%Z ->
  fetch_loop net url retries b (S todo) attempt = ([EvGet url], inl e).
Proof.
  intros H He Hlast. cbn [fetch_loop]. rewrite attempt_once_eq, H.
  cbn [bind try_except]. rewrite He.
  destruct (Z.ltb_spec attempt (retries - 1)); [lia|reflexivity].
Qed.

Lemma fetch_loop_retry net url retries b todo attempt e :
  reply_outcome (net url (Z.to_nat attempt)) = inl e ->
  is_ClientError e = true ->
  (attempt < retries - 1)%Z ->
  fetch_loop net url retries b (S todo) attempt =
    (EvGet url :: EvSleep (b ^ attempt)%Z ::
       fst (fetch_loop net url retries b todo (attempt + 1)%Z),
     snd (fetch_loop net url retries b todo (attempt + 1)%Z)).
Proof.
  intros H He Hlt. cbn [fetch_loop]. rewrite attempt_once_eq, H.
  cbn [bind try_except]. rewrite He.
  destruct (Z.ltb_spec attempt (retries - 1)); [|lia].
  destruct (fetch_loop net url retries b todo (attempt + 1)%Z) as [t r].
  reflexivity.
Qed.

Lemma client_error_reply_inv r :
  client_error_reply r = true ->
  exists e, reply_outcome r = inl e /\ is_ClientError e = true.
Proof.
  unfold client_error_reply. destruct (reply_outcome r) as [e|?]; [|discriminate].
  intros He. by exists e.
Qed.

(** [n] failures of class [ClientError], then a success. *)
Lemma fetch_loop_fail_then_succeed net url retries b body :
  forall (n todo : nat) (attempt : Z),
    (0 <= attempt)%Z -> n < todo -> (attempt + Z.of_nat n < retries)%Z ->
    (forall i, i < n -> client_error_reply (net url (Z.to_nat attempt + i)) = true) ->
    reply_outcome (net url (Z.to_nat attempt + n)) = inr body ->
    fetch_loop net url retries b todo attempt =
      (failed_attempts url b attempt n ++ [EvGet url], inr (Some body)).
Proof.
  induction n as [|n IH]; intros todo attempt Ha Hn Hr Hfail Hok.
  - destruct todo as [|todo]; [lia|]. rewrite Nat.add_0_r in Hok.
    by apply fetch_loop_success.
  - destruct todo as [|todo]; [lia|].
    destruct (client_error_reply_inv (net url (Z.to_nat attempt))) as (e & He & Hc).
    { specialize (Hfail 0). rewrite Nat.add_0_r in Hfail. apply Hfail. lia. }
    rewrite (fetch_loop_retry _ _ _ _ _ _ e) by (auto; lia).
    rewrite (IH todo (attempt + 1)%Z); try lia.
    + reflexivity.
    + intros i Hi. replace (Z.to_nat (attempt + 1) + i) with (Z.to_nat attempt + S i) by lia.
      apply Hfail. lia.
    + replace (Z.to_nat (attempt + 1) + n) with (Z.to_nat attempt + S n) by lia. exact Hok.
Qed.

(** Every attempt fails with a [ClientError]: the last one is raised. *)
Lemma fetch_loop_always_fails net url retries b :
  forall (todo : nat) (attempt : Z),
    (0 <= attempt)%Z -> (attempt + Z.of_nat (S todo) = retries)%Z ->
    (forall i, i < S todo -> client_error_reply (net url (Z.to_nat attempt + i)) = true) ->
    exists e,
      reply_outcome (net url (Z.to_nat attempt + todo)) = inl e /\
      is_ClientError e = true /\
      fetch_loop net url retries b (S todo) attempt =
        (failed_attempts url b attempt todo ++ [EvGet url], inl e).
Proof.
  induction todo as [|todo IH]; intros attempt Ha Hr Hfail.
  - destruct (client_error_reply_inv (net url (Z.to_nat attempt))) as (e & He & Hc).
    { specialize (Hfail 0). rewrite Nat.add_0_r in Hfail. apply Hfail. lia. }
    exists e. rewrite Nat.add_0_r. repeat split; auto.
    apply fetch_loop_last_error; auto. lia.
  - destruct (client_error_reply_inv (net url (Z.to_nat attempt))) as (e & He & Hc).
    { specialize (Hfail 0). rewrite Nat.add_0_r in Hfail. apply Hfail. lia. }
    destruct (IH (attempt + 1)%Z) as (e' & He' & Hc' & Hloop); try lia.
    { intros i Hi. replace (Z.to_nat (attempt + 1) + i) with (Z.to_nat attempt + S i) by lia.
      apply Hfail. lia. }
    exists e'. split; [|split; [exact Hc'|]].
    + replace (Z.to_nat attempt + S todo) with (Z.to_nat (attempt + 1) + todo) by lia.
      exact He'.
    + rewrite (fetch_loop_retry _ _ _ _ _ _ e) by (auto; lia).
      rewrite Hloop. reflexivity.
Qed.

Lemma fetch_loop_starts_with_get net url retries b todo attempt :
  exists t r, fetch_loop net url retries b (S todo) attempt = (EvGet url :: t, r).
Proof.
  cbn [fetch_loop]. rewrite attempt_once_eq.
  destruct (reply_outcome (net url (Z.to_nat attempt))) as [e|body]; cbn [bind try_except].
  - destruct (is_ClientError e); [|by eexists _, _].
    destruct (attempt <? retries - 1)%Z; [|by eexists _, _].
    cbn [emit bind]. destruct (fetch_loop _ _ _ _ _ _) as [t r]. by eexists _, _.
  - by eexists _, _.
Qed.

(** C3 as stated fails: a timeout is a transient failure, yet the request
    that times out is not repeated: [asyncio.TimeoutError] is not a
    ClientError, so it is raised after the first attempt although a second
    attempt would have succeeded. *)
Lemma fetch_does_not_retry_timeout :
  ~ spec_fetch_claim timeout_once_net "u" 3 2 1 "body".
Proof.
  intros H. unfold spec_fetch_claim in H.
  assert (Hres : result_of (fetch_with_retries timeout_once_net "u" 3 2)
                 = inr (Some "body")).
  { apply H; [lia|lia| |reflexivity]. intros [|i] Hi; [reflexivity|lia]. }
  vm_compute in Hres. discriminate.
Qed.

(** C3, amended: with [retries >= 1], [n < retries] failures of class ClientError
    followed by a success return the body after [n + 1] requests, and when
    every attempt fails the last error is raised after exactly [retries]
    requests; in both cases the sleep after attempt [i] is
    [backoff_factor ** i] and no sleep follows the last request. *)
Theorem fetch_with_retries_policy (net : network) (url : string) (retries b : Z) :
  (1 <= retries)%Z ->
  (forall (n : nat) (body : string),
      (Z.of_nat n < retries)%Z ->
      (forall i, i < n -> client_error_reply (net url i) = true) ->
      reply_outcome (net url n) = inr body ->
      fetch_with_retries net url retries b =
        (failed_attempts url b 0 n ++ [EvGet url], inr (Some body))) /\
  ((forall i, i < Z.to_nat retries -> client_error_reply (net url i) = true) ->
   exists e,
     reply_outcome (net url (Z.to_nat retries - 1)) = inl e /\
     is_ClientError e = true /\
     fetch_with_retries net url retries b =
       (failed_attempts url b 0 (Z.to_nat retries - 1) ++ [EvGet url], inl e) /\
     gets (trace_of (fetch_with_retries net url retries b)) = Z.to_nat retries /\
     sleeps (trace_of (fetch_with_retries net url retries b)) =
       backoff_delays b 0 (Z.to_nat retries - 1)).
Proof.
  intros Hr. split.
  - intros n body Hn Hfail Hok. unfold fetch_with_retries.
    apply fetch_loop_fail_then_succeed; simpl; auto; lia.
  - intros Hfail. unfold fetch_with_retries.
    destruct (Z.to_nat retries) as [|todo] eqn:Htodo; [lia|].
    destruct (fetch_loop_always_fails net url retries b todo 0%Z) as (e & He & Hc & Hloop);
      [lia|lia|exact Hfail|].
    exists e. simpl in He. replace (S todo - 1) with todo by lia.
    rewrite Hloop. unfold trace_of. cbn [fst].
    rewrite gets_app, sleeps_app, gets_failed_attempts, sleeps_failed_attempts.
    cbn [gets sleeps]. rewrite app_nil_r. repeat split; auto. lia.
Qed.

Lemma fetch_with_retries_policy_witness :
  fetch_with_retries flaky_net "u" 3 2 =
    ([EvGet "u"; EvSleep 1; EvGet "u"; EvSleep 2; EvGet "u"], inr (Some "body")).
Proof.
  destruct (fetch_with_retries_policy flaky_net "u" 3 2) as [H _]; [lia|].
  apply (H 2 "body").
  - lia.
  - intros [|[|i]] Hi; [reflexivity|reflexivity|lia].
  - reflexivity.
Defined.

(** C10: with [retries <= 0] the loop body never runs: no request, no sleep,
    and the call returns [None]. *)
Theorem fetch_with_retries_no_attempt (net : network) (url : string) (retries b : Z) :
  (retries <= 0)%Z ->
  fetch_with_retries net url retries b = ([], inr None).
Proof.
  intros Hr. unfold fetch_with_retries.
  replace (Z.to_nat retries) with 0 by lia. reflexivity.
Qed.

Lemma fetch_with_retries_no_attempt_witness :
  fetch_with_retries flaky_net "u" 0 2 = ([], inr None).
Proof. apply fetch_with_retries_no_attempt. lia. Defined.

(** C6 as stated fails: a 404 answer is neither a connection failure nor a
    server-side status, yet it is requested [retries] times. *)
Lemma fetch_retries_client_status :
  ~ (forall (net : network) (url : string) (retries b : Z),
        (1 <= retries)%Z ->
        spec_transient (net url 0) = false ->
        gets (trace_of (fetch_with_retries net url retries b)) = 1).
Proof.
  intros H. specialize (H not_found_net "u" 3%Z 2%Z).
  vm_compute in H. specialize (H ltac:(discriminate) eq_refl). discriminate.
Qed.

(** C6, amended: the retried errors are exactly those of class
    [aiohttp.ClientError], which every status of 400 or above raises; any
    other exception of the first attempt is raised at once, after one
    request and without a sleep, while a ClientError is followed by the
    sleep and a second request whenever [retries >= 2]. *)
Theorem fetch_retries_exactly_client_errors
    (net : network) (url : string) (retries b : Z) (e : exn) :
  (1 <= retries)%Z ->
  reply_outcome (net url 0) = inl e ->
  (is_ClientError e = false ->
     fetch_with_retries net url retries b = ([EvGet url], inl e)) /\
  (is_ClientError e = true -> (2 <= retries)%Z ->
     exists t r, fetch_with_retries net url retries b =
                   (EvGet url :: EvSleep (b ^ 0)%Z :: EvGet url :: t, r)) /\
  (forall status text, (400 <= status)%Z ->
     client_error_reply (Response status text) = true).
Proof.
  intros Hr He. unfold fetch_with_retries.
  destruct (Z.to_nat retries) as [|todo] eqn:Htodo; [lia|]. split; [|split].
  - intros Hc. by apply fetch_loop_other_error.
  - intros Hc Hr2. rewrite (fetch_loop_retry _ _ _ _ _ _ e) by (auto; lia).
    destruct todo as [|todo]; [lia|].
    destruct (fetch_loop_starts_with_get net url retries b todo (0 + 1)%Z) as (t & r & Hl).
    rewrite Hl. by eexists _, _.
  - intros status text Hs. unfold client_error_reply, reply_outcome.
    destruct (Z.leb_spec 400 status); [reflexivity|lia].
Qed.

Lemma fetch_retries_exactly_client_errors_witness :
  fetch_with_retries (fun _ _ => GetRaises (OtherException "decode")) "u" 3 2 =
    ([EvGet "u"], inl (OtherException "decode")).
Proof.
  eapply (fetch_retries_exactly_client_errors
            (fun _ _ => GetRaises (OtherException "decode")) "u" 3 2
            (OtherException "decode")); [lia|reflexivity|reflexivity].
Defined.

(** ** get_external_links *)

Lemma links_loop_spec url pw (domains : gset string) :
  urlparse url = inr pw ->
  forall (all_links : list tag) (acc : list string),
    Forall href_parses all_links ->
    links_loop url domains all_links acc =
      (acc ++ omap (keeps (netloc pw) domains) all_links, None).
Proof.
  intros Hpw. induction all_links as [|link rest IH]; intros acc HF.
  - simpl. by rewrite app_nil_r.
  - inversion HF as [|? ? Hlink Hrest]; subst.
    cbn [links_loop omap list_omap]. unfold keeps at 1.
    destruct (href_candidate (tag_get link "href")) eqn:Hc.
    + destruct (Hlink Hc) as [r Hr]. rewrite Hr, Hpw.
      destruct (negb (netloc r =? netloc pw)%string
                && bool_decide (netloc r ∈ domains)).
      * rewrite IH by done. by rewrite <- app_assoc.
      * by rewrite IH.
    + by rewrite IH.
Qed.

(** The fetch and the parser before the loop, as one computation. *)
Lemma get_external_links_before_loop w url (domains : gset string) t e :
  (let* html_content :=
     fetch_with_retries (net w) url default_retries default_backoff_factor in
   make_soup w html_content) = (t, inl e) ->
  get_external_links w url domains = (t ++ [EvPrint url e], inr []).
Proof. intros H. unfold get_external_links. by rewrite H. Qed.

Lemma fetched_and_parsed w url t html soup :
  fetch_with_retries (net w) url default_retries default_backoff_factor
    = (t, inr (Some html)) ->
  BeautifulSoup w html = inr soup ->
  (let* html_content :=
     fetch_with_retries (net w) url default_retries default_backoff_factor in
   make_soup w html_content) = (t, inr soup).
Proof.
  intros Hf Hp. unfold bind. rewrite Hf. cbn [make_soup lift]. rewrite Hp.
  by rewrite app_nil_r.
Qed.

Lemma get_external_links_ok w url (domains : gset string) t html soup pw :
  fetch_with_retries (net w) url default_retries default_backoff_factor
    = (t, inr (Some html)) ->
  BeautifulSoup w html = inr soup ->
  urlparse url = inr pw ->
  Forall href_parses (find_all "a" soup) ->
  get_external_links w url domains =
    (t, inr (omap (keeps (netloc pw) domains) (find_all "a" soup))).
Proof.
  intros Hf Hp Hpw HF. unfold get_external_links.
  rewrite (fetched_and_parsed w url t html soup Hf Hp).
  by rewrite (links_loop_spec url pw domains Hpw _ [] HF).
Qed.

(** The catch-all [except] lets nothing out. *)
Lemma get_external_links_never_raises w url (domains : gset string) :
  exists links, result_of (get_external_links w url domains) = inr links.
Proof.
  unfold get_external_links, result_of.
  destruct (let* html_content := _ in _) as [t [e|soup]]; [by eexists|].
  destruct (links_loop _ _ _ _) as [links [e|]]; by eexists.
Qed.

Lemma get_external_links_links_of w url (domains : gset string) :
  snd (get_external_links w url domains) = inr (links_of (get_external_links w url domains)).
Proof.
  destruct (get_external_links_never_raises w url domains) as [l Hl].
  unfold links_of. unfold result_of in *. by rewrite Hl.
Qed.

Lemma count_occ_omap {A} (f : A -> option string) (u : string) (l : list A) :
  count_occ string_dec (omap f l) u =
    length (List.filter (fun x => bool_decide (f x = Some u)) l).
Proof.
  induction l as [|x l IH]; [reflexivity|].
  cbn [omap list_omap List.filter]. destruct (f x) as [y|] eqn:Hy.
  - cbn [count_occ]. destruct (string_dec y u) as [->|Hne].
    + rewrite bool_decide_eq_true_2 by done. simpl. by rewrite IH.
    + rewrite bool_decide_eq_false_2 by congruence. done.
  - rewrite bool_decide_eq_false_2 by congruence. done.
Qed.

(** C2 as stated fails: an [ftp] link to a known foreign domain is a
    complete URL with a scheme, and the extractor drops it. *)
Lemma extractor_drops_ftp_link :
  ~ spec_extractor_claim (static_world (anchors_page ["ftp://b.com/z"]))
      "https://a.com/x" ab_domains ["ftp://b.com/z"].
Proof. unfold spec_extractor_claim. vm_compute. discriminate. Qed.

(** C2, amended: on a page that is fetched and parsed and none of whose
    candidate links makes [urlparse] raise, a URL is returned if and only if
    it is the re-assembled form of the href of an anchor whose href (a) is
    not empty and contains the text "http", (b) has a netloc different from
    the page's and (c) has a netloc in the known set. *)
Theorem get_external_links_keeps_iff w url (domains : gset string) t html soup pw :
  fetch_with_retries (net w) url default_retries default_backoff_factor
    = (t, inr (Some html)) ->
  BeautifulSoup w html = inr soup ->
  urlparse url = inr pw ->
  Forall href_parses (find_all "a" soup) ->
  exists links,
    result_of (get_external_links w url domains) = inr links /\
    forall u : string,
      u ∈ links <->
      exists link h r,
        link ∈ find_all "a" soup /\
        tag_get link "href" = Some h /\
        truthy h = true /\ contains "http" h = true /\
        urlparse h = inr r /\
        netloc r <> netloc pw /\
        netloc r ∈ domains /\
        u = geturl r.
Proof.
  intros Hf Hp Hpw HF.
  rewrite (get_external_links_ok w url domains t html soup pw Hf Hp Hpw HF).
  eexists; split; [reflexivity|]. intros u. rewrite list_elem_of_omap. split.
  - intros (link & Hin & Hk). unfold keeps in Hk.
    destruct (tag_get link "href") as [h|] eqn:Hh; [|discriminate].
    cbn [href_candidate default from_option id] in Hk.
    destruct (truthy h && contains "http" h) eqn:Hc; [|discriminate].
    apply andb_prop in Hc as [Ht Hc].
    destruct (urlparse h) as [?|r] eqn:Hr; [discriminate|].
    destruct (negb (netloc r =? netloc pw)%string
              && bool_decide (netloc r ∈ domains)) eqn:Hcond; [|discriminate].
    apply andb_prop in Hcond as [Hne Hmem].
    apply negb_true_iff, String.eqb_neq in Hne. apply bool_decide_eq_true_1 in Hmem.
    exists link, h, r. repeat split; auto. congruence.
  - intros (link & h & r & Hin & Hh & Ht & Hc & Hr & Hne & Hmem & ->).
    exists link. split; [done|]. unfold keeps. rewrite Hh.
    cbn [href_candidate default from_option id]. rewrite Ht, Hc, Hr. cbn [andb].
    apply String.eqb_neq in Hne. rewrite Hne.
    by rewrite bool_decide_eq_true_2.
Qed.

Lemma get_external_links_keeps_iff_witness :
  (exists links,
      result_of (get_external_links two_sites "https://a.com/x" ab_domains) = inr links /\
      forall u : string,
        u ∈ links <->
        exists link h r,
          link ∈ find_all "a" (anchors_page ["https://a.com/y"; "https://b.com/z"]) /\
          tag_get link "href" = Some h /\
          truthy h = true /\ contains "http" h = true /\
          urlparse h = inr r /\
          netloc r <> "a.com" /\
          netloc r ∈ ab_domains /\
          u = geturl r) /\
  result_of (get_external_links two_sites "https://a.com/x" ab_domains)
    = inr ["https://b.com/z"].
Proof.
  split; [|reflexivity].
  apply (get_external_links_keeps_iff two_sites "https://a.com/x" ab_domains
           [EvGet "https://a.com/x"] "https://a.com/x"
           (anchors_page ["https://a.com/y"; "https://b.com/z"])
           (mkParseResult "https" "a.com" "/x" "" "" "")).
  - reflexivity.
  - reflexivity.
  - reflexivity.
  - repeat constructor; intros _; eexists; reflexivity.
Defined.

(** C8 as stated fails: on a page whose second href [urlparse] rejects, the
    third anchor passes the filter and is not returned at all. *)
Lemma extractor_loses_links_after_rejected_href :
  ~ spec_multiplicity_claim
      (static_world (anchors_page ["https://b.com/z"; "http://[bad"; "https://b.com/w"]))
      "https://a.com/x" ab_domains "a.com"
      (anchors_page ["https://b.com/z"; "http://[bad"; "https://b.com/w"]).
Proof.
  intros H. specialize (H "https://b.com/w"). vm_compute in H. discriminate.
Qed.

(** C8, amended: when the page is fetched and parsed and no link makes [urlparse]
    raise, the returned list is the anchors of the page in document order,
    each replaced by its kept URL or dropped; nothing is merged, so a URL
    occurs in the output as often as there are anchors kept with it. *)
Theorem get_external_links_order_and_multiplicity
    w url (domains : gset string) t html soup pw :
  fetch_with_retries (net w) url default_retries default_backoff_factor
    = (t, inr (Some html)) ->
  BeautifulSoup w html = inr soup ->
  urlparse url = inr pw ->
  Forall href_parses (find_all "a" soup) ->
  exists links,
    result_of (get_external_links w url domains) = inr links /\
    links = omap (keeps (netloc pw) domains) (find_all "a" soup) /\
    forall u : string,
      count_occ string_dec links u =
        length (List.filter
                  (fun link => bool_decide (keeps (netloc pw) domains link = Some u))
                  (find_all "a" soup)).
Proof.
  intros Hf Hp Hpw HF.
  rewrite (get_external_links_ok w url domains t html soup pw Hf Hp Hpw HF).
  eexists; split; [reflexivity|]. split; [reflexivity|].
  intros u. apply count_occ_omap.
Qed.

Lemma get_external_links_order_and_multiplicity_witness :
  exists links,
    result_of (get_external_links
                 (static_world (anchors_page
                    ["https://b.com/z"; "https://a.com/y"; "https://b.com/w";
                     "https://b.com/z"]))
                 "https://a.com/x" ab_domains) = inr links /\
    links = ["https://b.com/z"; "https://b.com/w"; "https://b.com/z"] /\
    count_occ string_dec links "https://b.com/z" = 2.
Proof.
  destruct (get_external_links_order_and_multiplicity
              (static_world (anchors_page
                 ["https://b.com/z"; "https://a.com/y"; "https://b.com/w";
                  "https://b.com/z"]))
              "https://a.com/x" ab_domains
              [EvGet "https://a.com/x"] "https://a.com/x"
              (anchors_page
                 ["https://b.com/z"; "https://a.com/y"; "https://b.com/w";
                  "https://b.com/z"])
              (mkParseResult "https" "a.com" "/x" "" "" ""))
    as (links & Hres & Hlinks & Hcount).
  - reflexivity.
  - reflexivity.
  - reflexivity.
  - repeat constructor; intros _; eexists; reflexivity.
  - exists links. split; [exact Hres|]. split.
    + rewrite Hlinks. reflexivity.
    + rewrite Hcount. reflexivity.
Defined.

(** A failure before the loop, of the fetch or of the parser, leaves the
    slot empty and is printed. *)
Lemma get_external_links_fetch_failure w url (domains : gset string) t e :
  fetch_with_retries (net w) url default_retries default_backoff_factor = (t, inl e) ->
  get_external_links w url domains = (t ++ [EvPrint url e], inr []).
Proof.
  intros Hf. apply get_external_links_before_loop. unfold bind. by rewrite Hf.
Qed.

Lemma get_external_links_parser_failure w url (domains : gset string) t html e :
  fetch_with_retries (net w) url default_retries default_backoff_factor
    = (t, inr (Some html)) ->
  BeautifulSoup w html = inl e ->
  get_external_links w url domains = (t ++ [EvPrint url e], inr []).
Proof.
  intros Hf Hp. apply get_external_links_before_loop. unfold bind. rewrite Hf.
  cbn [make_soup lift]. rewrite Hp. by rewrite app_nil_r.
Qed.

(** C4: a page whose second anchor has an href that [urlparse] rejects.  The
    exception is caught and printed, and the slot holds the link kept before
    it: the sequence is partly filled, not empty. *)
Theorem get_external_links_partial_on_failure :
  get_external_links
    (static_world (anchors_page ["https://b.com/z"; "http://[bad"; "https://b.com/w"]))
    "https://a.com/x" ab_domains
  = ([EvGet "https://a.com/x";
      EvPrint "https://a.com/x" (ValueError "Invalid IPv6 URL")],
     inr ["https://b.com/z"]).
Proof. reflexivity. Qed.

(** ** scrape_google_search_results *)

Lemma snd_bind_pure {A B} (a : A) (k : A -> M B) :
  snd (bind (([], inr a) : M A) k) = snd (k a).
Proof. unfold bind. by destruct (k a). Qed.

Lemma snd_bind_emit {B} (ev : event) (m : M B) :
  snd (emit ev >> m) = snd m.
Proof. unfold bind, emit. by destruct m. Qed.

Lemma results_loop_spec (exclude_websites : list string) :
  forall (search_results : list tag) (links acc : list string),
    Forall2 result_with_link search_results links ->
    snd (results_loop exclude_websites search_results acc) =
      inr (acc ++ List.filter
                    (fun link => negb (excluded exclude_websites (reassembled link)))
                    links).
Proof.
  intros search_results links acc HF. revert acc.
  induction HF as [|result link rest links' [Hlink [r Hr]] _ IH]; intros acc.
  - simpl. by rewrite app_nil_r.
  - cbn [results_loop List.filter]. rewrite Hlink. unfold ret at 1.
    rewrite snd_bind_pure, Hr. unfold lift. rewrite snd_bind_pure.
    unfold reassembled at 1. rewrite Hr.
    destruct (negb (excluded exclude_websites (geturl r))).
    + rewrite IH. by rewrite <- app_assoc.
    + by rewrite snd_bind_emit, IH.
Qed.

Lemma filter_all_true {A} (f : A -> bool) (l : list A) :
  (forall x, f x = true) -> List.filter f l = l.
Proof.
  intros Hf. induction l as [|x l IH]; [reflexivity|].
  simpl. by rewrite Hf, IH.
Qed.

Lemma scrape_ok w query num_results lang exclude_websites t html soup links :
  fetch_with_retries (net w) (search_url query num_results lang)
    default_retries default_backoff_factor = (t, inr (Some html)) ->
  BeautifulSoup w html = inr soup ->
  Forall2 result_with_link (find_all_class "div" "tF2Cxc" soup) links ->
  result_of (scrape_google_search_results w query num_results lang exclude_websites) =
    inr (List.filter
           (fun link => negb (excluded exclude_websites (reassembled link))) links).
Proof.
  intros Hf Hp HF. unfold scrape_google_search_results, result_of.
  pose proof (results_loop_spec exclude_websites _ _ [] HF) as Hloop.
  unfold bind. rewrite Hf. cbn [make_soup lift]. rewrite Hp. cbn beta iota.
  destruct (results_loop exclude_websites (find_all_class "div" "tF2Cxc" soup) [])
    as [t' r']. cbn [snd] in Hloop. subst r'. reflexivity.
Qed.

(** C7 as stated fails: the result URL "HTTP://x.com/" contains the exclude
    text "HTTP:" and is kept, because the test reads the re-assembled URL,
    whose scheme is in lower case. *)
Lemma scraper_keeps_url_with_exclude_text :
  ~ spec_scraper_claim (static_world (serp_page ["HTTP://x.com/"]))
      "q" 10 "us" ["HTTP:"] ["HTTP://x.com/"].
Proof. unfold spec_scraper_claim. vm_compute. discriminate. Qed.

(** C7, amended: when the result page is fetched and parsed and every
    organic result has a first anchor with an href that [urlparse] accepts,
    a result URL is omitted if and only if its re-assembled form
    [urlparse(link).geturl()] contains one of the exclude substrings; the
    URLs that remain keep their order and their original text, and an empty
    exclude list keeps them all. *)
Theorem scrape_excludes_by_substring
    w query num_results lang exclude_websites t html soup links :
  fetch_with_retries (net w) (search_url query num_results lang)
    default_retries default_backoff_factor = (t, inr (Some html)) ->
  BeautifulSoup w html = inr soup ->
  Forall2 result_with_link (find_all_class "div" "tF2Cxc" soup) links ->
  result_of (scrape_google_search_results w query num_results lang exclude_websites) =
    inr (List.filter
           (fun link => negb (existsb (fun website => contains website (reassembled link))
                                      exclude_websites))
           links) /\
  (exclude_websites = [] ->
   result_of (scrape_google_search_results w query num_results lang exclude_websites) =
     inr links).
Proof.
  intros Hf Hp HF.
  pose proof (scrape_ok w query num_results lang exclude_websites t html soup links
                Hf Hp HF) as H.
  split; [exact H|]. intros ->. rewrite H. f_equal. by apply filter_all_true.
Qed.

Lemma scrape_excludes_by_substring_witness :
  result_of (scrape_google_search_results
               (static_world (serp_page
                  ["https://a.com/x"; "https://spam.com/1"; "https://b.com/spam.com"]))
               "q" 10 "us" ["spam.com"]) = inr ["https://a.com/x"].
Proof.
  apply (scrape_excludes_by_substring
           (static_world (serp_page
              ["https://a.com/x"; "https://spam.com/1"; "https://b.com/spam.com"]))
           "q" 10 "us" ["spam.com"]
           [EvGet "https://www.google.com/search?q=q&num=10&gl=us"]
           "https://www.google.com/search?q=q&num=10&gl=us"
           (serp_page ["https://a.com/x"; "https://spam.com/1"; "https://b.com/spam.com"])
           ["https://a.com/x"; "https://spam.com/1"; "https://b.com/spam.com"]).
  - reflexivity.
  - reflexivity.
  - repeat constructor; eexists; reflexivity.
Defined.

(** C9: when the fetch of the search page raises, the scraper does not: it
    shows the error with [st.error] and returns the empty list. *)
Theorem scrape_fetch_failure w query num_results lang exclude_websites t e :
  fetch_with_retries (net w) (search_url query num_results lang)
    default_retries default_backoff_factor = (t, inl e) ->
  scrape_google_search_results w query num_results lang exclude_websites =
    (t ++ [EvStError e], inr []).
Proof.
  intros Hf. unfold scrape_google_search_results.
  unfold bind at 1. rewrite Hf. reflexivity.
Qed.

Lemma scrape_fetch_failure_witness :
  scrape_google_search_results (mkWorld not_found_net (fun _ => inr (serp_page [])))
    "q" 10 "us" [] =
  ([EvGet "https://www.google.com/search?q=q&num=10&gl=us"; EvSleep 1;
    EvGet "https://www.google.com/search?q=q&num=10&gl=us"; EvSleep 2;
    EvGet "https://www.google.com/search?q=q&num=10&gl=us";
    EvStError (ClientResponseError 404)], inr []).
Proof.
  apply (scrape_fetch_failure (mkWorld not_found_net (fun _ => inr (serp_page [])))
           "q" 10 "us" []
           [EvGet "https://www.google.com/search?q=q&num=10&gl=us"; EvSleep 1;
            EvGet "https://www.google.com/search?q=q&num=10&gl=us"; EvSleep 2;
            EvGet "https://www.google.com/search?q=q&num=10&gl=us"]
           (ClientResponseError 404)).
  reflexivity.
Defined.

(** The catch-all [except] of the scraper lets nothing out either. *)
Lemma scrape_never_raises w query num_results lang exclude_websites :
  exists links,
    result_of (scrape_google_search_results w query num_results lang exclude_websites)
      = inr links.
Proof.
  unfold scrape_google_search_results, result_of, try_except.
  destruct (let* html_content := _ in _) as [t [e|links]]; by eexists.
Qed.

(** ** process_search_results *)

Section Crawl.
Variable w : world.
Variable urls : list string.
Variable domains : gset string.

Local Abbreviation slot := (slot w domains).
Local Abbreviation crawl_inv := (crawl_inv w urls domains).

Lemma running_insert (ts : list task_state) (i : nat) (old new : task_state) :
  ts !! i = Some old ->
  length (List.filter is_running (<[i := new]> ts)) + (if is_running old then 1 else 0)
  = length (List.filter is_running ts) + (if is_running new then 1 else 0).
Proof.
  revert i. induction ts as [|t ts IH]; intros i Hi; [done|].
  destruct i as [|i]; simpl in *.
  - injection Hi as ->. destruct (is_running old), (is_running new); simpl; lia.
  - specialize (IH i Hi). destruct (is_running t); simpl; lia.
Qed.

Lemma crawl_init_inv (k : Z) : crawl_inv (Z.to_nat k) (crawl_init urls k).
Proof.
  unfold crawl_inv, crawl_init, in_flight. cbn [tasks sem_value]. split; [|split].
  - by rewrite length_replicate.
  - induction (length urls) as [|n IH]; simpl; auto.
  - intros i url r _ Hi. apply lookup_replicate in Hi as [? _]. discriminate.
Qed.

Lemma step_inv limit a s s' :
  crawl_inv limit s -> step w urls domains a s = Some s' -> crawl_inv limit s'.
Proof.
  intros (Hlen & Hsem & Hdone) Hstep. destruct a as [i|i]; cbn [step] in Hstep.
  - destruct (tasks s !! i) as [[| |]|] eqn:Hi; try discriminate.
    destruct (sem_value s) as [|v] eqn:Hv; [discriminate|].
    injection Hstep as <-. unfold crawl_inv, in_flight in *. cbn [tasks sem_value].
    split; [by rewrite length_insert|]. split.
    + pose proof (running_insert (tasks s) i Waiting Running Hi) as H.
      simpl in H. lia.
    + intros j url r Hu Hj. destruct (decide (i = j)) as [->|Hne].
      * rewrite list_lookup_insert_eq in Hj by eauto using lookup_lt_Some.
        discriminate.
      * rewrite list_lookup_insert_ne in Hj by done. eauto.
  - destruct (tasks s !! i) as [[| |]|] eqn:Hi; try discriminate.
    destruct (urls !! i) as [url|] eqn:Hu; [|discriminate].
    destruct (get_external_links w url domains) as [t r] eqn:Hg.
    injection Hstep as <-. unfold crawl_inv, in_flight in *. cbn [tasks sem_value].
    split; [by rewrite length_insert|]. split.
    + pose proof (running_insert (tasks s) i Running (Done r) Hi) as H.
      simpl in H. lia.
    + intros j url' r' Hu' Hj. destruct (decide (i = j)) as [->|Hne].
      * rewrite list_lookup_insert_eq in Hj by eauto using lookup_lt_Some.
        injection Hj as <-. rewrite Hu in Hu'. injection Hu' as <-.
        unfold slot. by rewrite Hg.
      * rewrite list_lookup_insert_ne in Hj by done. eauto.
Qed.

Lemma run_inv limit schedule :
  forall s s', crawl_inv limit s -> run w urls domains schedule s = Some s' ->
               crawl_inv limit s'.
Proof.
  induction schedule as [|a rest IH]; intros s s' Hinv Hrun; cbn [run] in Hrun.
  - by injection Hrun as <-.
  - destruct (step w urls domains a s) as [s1|] eqn:Hstep; [|discriminate].
    eauto using step_inv.
Qed.

(** A slot is taken only when one is free. *)
Lemma acquire_needs_free_slot limit i s s' :
  crawl_inv limit s -> step w urls domains (Acquire i) s = Some s' ->
  in_flight s < limit /\ in_flight s' = S (in_flight s).
Proof.
  intros (Hlen & Hsem & Hdone) Hstep. cbn [step] in Hstep.
  destruct (tasks s !! i) as [[| |]|] eqn:Hi; try discriminate.
  destruct (sem_value s) as [|v] eqn:Hv; [discriminate|].
  injection Hstep as <-. unfold in_flight in *. cbn [tasks].
  pose proof (running_insert (tasks s) i Waiting Running Hi) as H.
  simpl in H. lia.
Qed.

(** [gather] returns only when every task is done, and then it hands out
    the slots in task order. *)
Lemma gather_slots (f : string -> list string) :
  forall (us : list string) (ts : list task_state) out,
    length ts = length us ->
    (forall i url r, us !! i = Some url -> ts !! i = Some (Done r) -> r = inr (f url)) ->
    gather ts = Some out ->
    out = inr (map f us).
Proof.
  induction us as [|u us IH]; intros ts out Hlen Hdone Hg.
  - destruct ts; [|discriminate]. simpl in Hg. by injection Hg as <-.
  - destruct ts as [|t ts]; [discriminate|]. simpl in Hlen.
    destruct t as [| |r]; try discriminate.
    pose proof (Hdone 0 u r eq_refl eq_refl) as ->. cbn [gather] in Hg.
    destruct (gather ts) as [out'|] eqn:Hts; [|discriminate].
    assert (out' = inr (map f us)) as ->.
    { apply (IH ts); [lia| |exact Hts].
      intros i url r Hu Ht. exact (Hdone (S i) url r Hu Ht). }
    by injection Hg as <-.
Qed.

Lemma gather_all_done (f : string -> list string) (us : list string) :
  gather (map (fun u => Done (inr (f u))) us) = Some (inr (map f us)).
Proof. induction us as [|u us IH]; [reflexivity|]. simpl. by rewrite IH. Qed.

Lemma step_acquire_next v (finished ws : list task_state) lg :
  step w urls domains (Acquire (length finished))
       (mkCrawl (S v) (finished ++ Waiting :: ws) lg)
  = Some (mkCrawl v (finished ++ Running :: ws) lg).
Proof.
  cbn [step tasks sem_value log].
  rewrite (list_lookup_middle finished ws Waiting (length finished) eq_refl).
  rewrite (insert_app_r_alt finished (Waiting :: ws) (length finished) Running) by lia.
  by rewrite Nat.sub_diag.
Qed.

Lemma step_finish_next v (finished ws : list task_state) lg u :
  urls !! length finished = Some u ->
  step w urls domains (Finish (length finished))
       (mkCrawl v (finished ++ Running :: ws) lg)
  = Some (mkCrawl (S v) (finished ++ Done (slot u) :: ws)
                  (lg ++ fst (get_external_links w u domains))).
Proof.
  intros Hu. cbn [step tasks sem_value log].
  rewrite (list_lookup_middle finished ws Running (length finished) eq_refl), Hu.
  unfold slot. destruct (get_external_links w u domains) as [t r].
  rewrite (insert_app_r_alt finished (Running :: ws) (length finished)) by lia.
  by rewrite Nat.sub_diag.
Qed.

(** The tasks run one after the other: each takes the slot and finishes. *)
Lemma run_one_by_one v :
  forall (rest pre : list string) (finished : list task_state) (lg : list event),
    urls = pre ++ rest ->
    length finished = length pre ->
    exists lg',
      run w urls domains
        (flat_map (fun i => [Acquire i; Finish i]) (seq (length pre) (length rest)))
        (mkCrawl (S v) (finished ++ replicate (length rest) Waiting) lg)
      = Some (mkCrawl (S v) (finished ++ map (fun u => Done (slot u)) rest) lg').
Proof.
  induction rest as [|u rest IH]; intros pre finished lg Hurls Hlen.
  - by exists lg.
  - destruct (IH (pre ++ [u]) (finished ++ [Done (slot u)])
                (lg ++ fst (get_external_links w u domains))) as [lg' Hrun].
    { by rewrite <- app_assoc. }
    { rewrite !length_app. simpl. lia. }
    exists lg'. rewrite length_app, Nat.add_1_r in Hrun.
    rewrite <- !app_assoc in Hrun.
    cbn [length seq flat_map replicate map]. rewrite <- Hlen.
    change ([Acquire (length finished); Finish (length finished)] ++ ?l)
      with (Acquire (length finished) :: Finish (length finished) :: l).
    cbn [run]. rewrite step_acquire_next.
    rewrite (step_finish_next v finished _ lg u).
    + rewrite Hlen. exact Hrun.
    + rewrite Hurls, Hlen. by apply list_lookup_middle.
Qed.
End Crawl.

Lemma search_result_domains_ok (urls : list string) :
  Forall parses urls -> exists domains, search_result_domains urls = inr domains.
Proof.
  induction 1 as [|url urls [r Hr] _ [d IH]]; [by eexists|].
  cbn [search_result_domains]. rewrite Hr, IH. by eexists.
Qed.

(** Every URL that the scraper returns has passed [urlparse]. *)
Lemma results_loop_parses (exclude_websites : list string) :
  forall (search_results : list tag) (acc links : list string),
    Forall parses acc ->
    snd (results_loop exclude_websites search_results acc) = inr links ->
    Forall parses links.
Proof.
  induction search_results as [|result rest IH]; intros acc links Hacc Hres.
  - simpl in Hres. by injection Hres as <-.
  - cbn [results_loop] in Hres. unfold primary_link in Hres.
    destruct (find "a" result) as [a|]; [|discriminate].
    destruct (tag_get a "href") as [link|]; [|discriminate].
    unfold ret at 1 in Hres. rewrite snd_bind_pure in Hres.
    destruct (urlparse link) as [e|r] eqn:Hr; [discriminate|].
    unfold lift in Hres. rewrite snd_bind_pure in Hres.
    destruct (negb (excluded exclude_websites (geturl r))).
    + apply (IH _ _ (proj2 (Forall_app _ _ _) (conj Hacc (Forall_cons_2 _ _ _
               (ex_intro _ r Hr) (Forall_nil_2 _)))) Hres).
    + rewrite snd_bind_emit in Hres. eauto.
Qed.

(** C1 as stated fails: the domain set is built outside any [try], so one
    URL that [urlparse] rejects makes the whole call raise. *)
Lemma crawl_raises_on_rejected_url :
  ~ spec_crawl_claim two_sites ["https://a.com/x"; "http://[bad"; "https://b.com/"] 2.
Proof.
  intros H. destruct H as (schedule & rs & Hres & _); [discriminate|lia|].
  unfold process_search_results in Hres.
  assert (Hsetup : crawl_setup ["https://a.com/x"; "http://[bad"; "https://b.com/"] 2
                   = inl (ValueError "Invalid IPv6 URL")) by reflexivity.
  rewrite Hsetup in Hres. discriminate.
Qed.

(** C1, amended: for a limit of at least 1 and URLs that [urlparse] accepts, the crawl
    can run to its end, and under every schedule with which [gather]
    returns, the result has one link list per input URL, the list at
    position [i] being what [get_external_links] gives for [urls[i]]. *)
Theorem process_search_results_in_input_order (w : world) (urls : list string) (k : Z) :
  (1 <= k)%Z ->
  Forall parses urls ->
  exists domains,
    crawl_setup urls k = inr domains /\
    (exists schedule rs, process_search_results w urls k schedule = Some (inr rs)) /\
    forall schedule out,
      process_search_results w urls k schedule = Some out ->
      exists rs,
        out = inr rs /\
        length rs = length urls /\
        forall i url,
          urls !! i = Some url ->
          rs !! i = Some (links_of (get_external_links w url domains)).
Proof.
  intros Hk Hurls. destruct (search_result_domains_ok urls Hurls) as [domains Hd].
  assert (Hsetup : crawl_setup urls k = inr domains).
  { unfold crawl_setup. destruct (Z.ltb_spec k 0); [lia|done]. }
  exists domains. split; [exact Hsetup|]. split.
  - exists (one_by_one (length urls)), (map (fun u => links_of (get_external_links w u domains)) urls).
    unfold process_search_results. rewrite Hsetup. unfold crawl_init, one_by_one.
    destruct (Z.to_nat k) as [|v] eqn:Hv; [lia|].
    destruct (run_one_by_one w urls domains v urls [] [] [] eq_refl eq_refl) as [lg' Hrun].
    simpl in Hrun. rewrite Hrun. cbn [tasks].
    rewrite <- (gather_all_done (fun u => links_of (get_external_links w u domains))).
    f_equal. apply map_ext. intros u. f_equal. apply get_external_links_links_of.
  - intros schedule out Hout. unfold process_search_results in Hout.
    rewrite Hsetup in Hout.
    destruct (run w urls domains schedule (crawl_init urls k)) as [s|] eqn:Hrun;
      [|discriminate].
    destruct (run_inv w urls domains _ _ _ _ (crawl_init_inv w urls domains k) Hrun)
      as (Hlen & _ & Hdone).
    rewrite (gather_slots (fun u => links_of (get_external_links w u domains))
               urls (tasks s) out Hlen) by
      (try exact Hout; intros i url r Hu Ht; rewrite (Hdone i url r Hu Ht);
       apply get_external_links_links_of).
    eexists. split; [reflexivity|]. split; [by rewrite length_map|].
    intros i url Hu. change (map ?f ?l) with (f <$> l).
    by rewrite list_lookup_fmap, Hu.
Qed.

Lemma process_search_results_in_input_order_witness :
  (exists domains,
      crawl_setup ["https://a.com/x"; "https://b.com/"] 2 = inr domains /\
      (exists schedule rs,
          process_search_results two_sites ["https://a.com/x"; "https://b.com/"] 2 schedule
          = Some (inr rs)) /\
      forall schedule out,
        process_search_results two_sites ["https://a.com/x"; "https://b.com/"] 2 schedule
        = Some out ->
        exists rs,
          out = inr rs /\
          length rs = length ["https://a.com/x"; "https://b.com/"] /\
          forall i url,
            ["https://a.com/x"; "https://b.com/"] !! i = Some url ->
            rs !! i = Some (links_of (get_external_links two_sites url domains))) /\
  process_search_results two_sites ["https://a.com/x"; "https://b.com/"] 2
    [Acquire 1; Acquire 0; Finish 1; Finish 0]
  = Some (inr [["https://b.com/z"]; ["https://a.com/x"]]).
Proof.
  split; [|reflexivity].
  apply (process_search_results_in_input_order two_sites
           ["https://a.com/x"; "https://b.com/"] 2).
  - lia.
  - repeat constructor; eexists; reflexivity.
Defined.

(** C5: in every state that a run of the crawl reaches, at most
    [concurrency_limit] tasks are inside [get_external_links]; a waiting task
    is admitted only while fewer than that are, and the default limit is 5. *)
Theorem crawl_in_flight_bounded (w : world) (urls : list string)
    (domains : gset string) (k : Z) (schedule : list action) (s : crawl_state) :
  run w urls domains schedule (crawl_init urls k) = Some s ->
  in_flight s <= Z.to_nat k /\
  in_flight s + sem_value s = Z.to_nat k /\
  (forall i s', step w urls domains (Acquire i) s = Some s' ->
                in_flight s < Z.to_nat k /\ in_flight s' = S (in_flight s)) /\
  default_concurrency_limit = 5%Z.
Proof.
  intros Hrun.
  pose proof (run_inv w urls domains _ _ _ _ (crawl_init_inv w urls domains k) Hrun)
    as Hinv.
  split; [destruct Hinv as (_ & H & _); lia|].
  split; [by destruct Hinv as (_ & H & _)|]. split; [|reflexivity].
  intros i s' Hstep. eapply acquire_needs_free_slot; eauto.
Qed.

Lemma crawl_in_flight_bounded_witness :
  in_flight (mkCrawl 0 [Running; Waiting; Running] []) <= Z.to_nat 2 /\
  in_flight (mkCrawl 0 [Running; Waiting; Running] []) + 0 = Z.to_nat 2.
Proof.
  destruct (crawl_in_flight_bounded two_sites
              ["https://a.com/x"; "https://b.com/"; "https://a.com/x"]
              ab_domains 2 [Acquire 2; Acquire 0]
              (mkCrawl 0 [Running; Waiting; Running] []) eq_refl)
    as (H1 & H2 & _).
  split; [exact H1|exact H2].
Defined.

(** The URLs that the scraper hands to the crawl have all passed
    [urlparse]. *)
Lemma scrape_results_parse w query num_results lang exclude_websites links :
  result_of (scrape_google_search_results w query num_results lang exclude_websites)
    = inr links ->
  Forall parses links.
Proof.
  unfold scrape_google_search_results, result_of, try_except, bind.
  destruct (fetch_with_retries _ _ _ _) as [t [e|html_content]].
  - intros H. injection H as <-. constructor.
  - destruct (make_soup w html_content) as [t1 [e|soup]].
    + intros H. injection H as <-. constructor.
    + pose proof (results_loop_parses exclude_websites
                    (find_all_class "div" "tF2Cxc" soup) []) as Hloop.
      destruct (results_loop _ _ _) as [t2 [e|ls]].
      * intros H. injection H as <-. constructor.
      * intros H. injection H as <-. apply Hloop; [constructor|reflexivity].
Qed.

(** * Further properties *)

(** ** fetch_with_retries *)

(** Whatever the network does, a run of the loop is some failed attempts of
    class ClientError, each with its sleep, and one last request whose
    outcome is the outcome of the call. *)
Lemma fetch_loop_shape net url retries b :
  forall (todo : nat) (attempt : Z),
    (0 <= attempt)%Z -> (Z.of_nat (S todo) + attempt = retries)%Z ->
    exists n,
      n <= todo /\
      fst (fetch_loop net url retries b (S todo) attempt) =
        failed_attempts url b attempt n ++ [EvGet url] /\
      snd (fetch_loop net url retries b (S todo) attempt) =
        match reply_outcome (net url (Z.to_nat attempt + n)) with
        | inl e => inl e
        | inr body => inr (Some body)
        end /\
      (forall i, i < n -> client_error_reply (net url (Z.to_nat attempt + i)) = true) /\
      (n < todo -> client_error_reply (net url (Z.to_nat attempt + n)) = false).
Proof.
  induction todo as [|todo IH]; intros attempt Ha Hr.
  - exists 0. rewrite Nat.add_0_r. split; [lia|].
    destruct (reply_outcome (net url (Z.to_nat attempt))) as [e|body] eqn:Ho.
    + destruct (is_ClientError e) eqn:Hc.
      * rewrite (fetch_loop_last_error _ _ _ _ _ _ e) by (auto; lia).
        repeat split; auto; intros; lia.
      * rewrite (fetch_loop_other_error _ _ _ _ _ _ e) by auto.
        repeat split; auto; intros; lia.
    + rewrite (fetch_loop_success _ _ _ _ _ _ body) by auto.
      repeat split; auto; intros; lia.
  - destruct (reply_outcome (net url (Z.to_nat attempt))) as [e|body] eqn:Ho.
    + destruct (is_ClientError e) eqn:Hc.
      * rewrite (fetch_loop_retry _ _ _ _ _ _ e) by (auto; lia).
        destruct (IH (attempt + 1)%Z) as (n & Hn & Ht & Hres & Hfail & Hstop); [lia|lia|].
        exists (S n). cbn [fst snd]. split; [lia|].
        replace (Z.to_nat attempt + S n) with (Z.to_nat (attempt + 1) + n) by lia.
        split; [by rewrite Ht|]. split; [exact Hres|]. split.
        -- intros [|i] Hi.
           ++ rewrite Nat.add_0_r. unfold client_error_reply. by rewrite Ho.
           ++ replace (Z.to_nat attempt + S i) with (Z.to_nat (attempt + 1) + i) by lia.
              apply Hfail. lia.
        -- intros Hlt. apply Hstop. lia.
      * rewrite (fetch_loop_other_error _ _ _ _ _ _ e) by auto.
        exists 0. rewrite Nat.add_0_r, Ho. repeat split; auto; try lia.
        intros _. unfold client_error_reply. by rewrite Ho.
    + rewrite (fetch_loop_success _ _ _ _ _ _ body) by auto.
      exists 0. rewrite Nat.add_0_r, Ho. repeat split; auto; try lia.
      intros _. unfold client_error_reply. by rewrite Ho.
Qed.

Lemma fetch_with_retries_shape net url retries b :
  (1 <= retries)%Z ->
  exists n,
    n < Z.to_nat retries /\
    trace_of (fetch_with_retries net url retries b) =
      failed_attempts url b 0 n ++ [EvGet url] /\
    result_of (fetch_with_retries net url retries b) =
      match reply_outcome (net url n) with
      | inl e => inl e
      | inr body => inr (Some body)
      end /\
    (forall i, i < n -> client_error_reply (net url i) = true) /\
    (S n < Z.to_nat retries -> client_error_reply (net url n) = false).
Proof.
  intros Hr. unfold fetch_with_retries, trace_of, result_of.
  destruct (Z.to_nat retries) as [|todo] eqn:Htodo; [lia|].
  destruct (fetch_loop_shape net url retries b todo 0%Z) as (n & Hn & Ht & Hres & Hf & Hs);
    [lia|lia|].
  exists n. simpl in *. repeat split; auto; try lia. intros H. apply Hs. lia.
Qed.

(** X1: for [retries >= 1] and any network, the call makes [n + 1] requests
    for some [n < retries]: the first [n] fail with a ClientError and are
    each followed by the sleep [backoff_factor ** i], the last request is
    followed by no sleep, and what the call returns or raises is what that
    last request gave.  It stops before the last allowed attempt only on a
    success or on an exception that is not a ClientError. *)
Theorem fetch_with_retries_last_attempt_decides
    (net : network) (url : string) (retries b : Z) :
  (1 <= retries)%Z ->
  exists n,
    n < Z.to_nat retries /\
    trace_of (fetch_with_retries net url retries b) =
      failed_attempts url b 0 n ++ [EvGet url] /\
    result_of (fetch_with_retries net url retries b) =
      match reply_outcome (net url n) with
      | inl e => inl e
      | inr body => inr (Some body)
      end /\
    (forall i, i < n -> client_error_reply (net url i) = true) /\
    (S n < Z.to_nat retries -> client_error_reply (net url n) = false).
Proof. apply fetch_with_retries_shape. Qed.

Lemma fetch_with_retries_last_attempt_decides_witness :
  exists n,
    n < Z.to_nat 5 /\
    trace_of (fetch_with_retries flaky_net "u" 5 3) =
      failed_attempts "u" 3 0 n ++ [EvGet "u"] /\
    result_of (fetch_with_retries flaky_net "u" 5 3) =
      match reply_outcome (flaky_net "u" n) with
      | inl e => inl e
      | inr body => inr (Some body)
      end /\
    (forall i, i < n -> client_error_reply (flaky_net "u" i) = true) /\
    (S n < Z.to_nat 5 -> client_error_reply (flaky_net "u" n) = false).
Proof. apply (fetch_with_retries_last_attempt_decides flaky_net "u" 5 3). lia. Defined.

(** X2: the call returns [None] exactly when [retries <= 0]; with at least
    one attempt allowed it returns a body or raises. *)
Theorem fetch_with_retries_none_iff (net : network) (url : string) (retries b : Z) :
  result_of (fetch_with_retries net url retries b) = inr None <-> (retries <= 0)%Z.
Proof.
  split.
  - intros Hnone. destruct (Z.le_gt_cases retries 0) as [|Hpos]; [done|].
    destruct (fetch_with_retries_shape net url retries b) as (n & _ & _ & Hres & _);
      [lia|].
    rewrite Hres in Hnone. destruct (reply_outcome (net url n)); discriminate.
  - intros Hr. unfold fetch_with_retries.
    replace (Z.to_nat retries) with 0 by lia. reflexivity.
Qed.

(** X3: for every network and every [retries], the number of requests is at
    most [retries] (none when [retries <= 0]), and the sleeps are
    [backoff_factor ** 0, ..., backoff_factor ** (g - 2)] where [g] is the
    number of requests made: one sleep less than requests. *)
Theorem fetch_with_retries_budget (net : network) (url : string) (retries b : Z) :
  gets (trace_of (fetch_with_retries net url retries b)) <= Z.to_nat retries /\
  sleeps (trace_of (fetch_with_retries net url retries b)) =
    backoff_delays b 0 (gets (trace_of (fetch_with_retries net url retries b)) - 1).
Proof.
  destruct (Z.le_gt_cases retries 0) as [Hr|Hr].
  - unfold fetch_with_retries. replace (Z.to_nat retries) with 0 by lia.
    simpl. split; [lia|reflexivity].
  - destruct (fetch_with_retries_shape net url retries b) as (n & Hn & Ht & _); [lia|].
    rewrite Ht, gets_app, sleeps_app, gets_failed_attempts, sleeps_failed_attempts.
    cbn [gets sleeps]. rewrite app_nil_r. replace (n + 1 - 1) with n by lia.
    split; [lia|reflexivity].
Qed.

(** ** get_external_links *)

(** The loop up to its end or to the first href that [urlparse] rejects. *)
(** The failing anchor of the rest of the list, seen from the whole list. *)
Ltac shift_failure H :=
  match type of H with
  | match ?x with _ => _ end =>
      destruct x as [?|];
      [ let l := fresh "l" in
        destruct H as (l & ? & ? & ?); by exists l
      | by f_equal ]
  end.

(** The loop up to its end or to the first href that [urlparse] rejects. *)
Lemma links_loop_prefix url pw (domains : gset string) :
  urlparse url = inr pw ->
  forall (all_links : list tag) (acc : list string),
    exists n,
      n <= length all_links /\
      Forall href_parses (take n all_links) /\
      fst (links_loop url domains all_links acc) =
        acc ++ omap (keeps (netloc pw) domains) (take n all_links) /\
      match snd (links_loop url domains all_links acc) with
      | None => n = length all_links
      | Some e =>
          exists link,
            all_links !! n = Some link /\
            href_candidate (tag_get link "href") = true /\
            urlparse (default EmptyString (tag_get link "href")) = inl e
      end.
Proof.
  intros Hpw. induction all_links as [|link rest IH]; intros acc.
  - exists 0. simpl. rewrite app_nil_r. repeat split; auto.
  - cbn [links_loop].
    destruct (href_candidate (tag_get link "href")) eqn:Hc.
    + destruct (urlparse (default EmptyString (tag_get link "href"))) as [e|r] eqn:Hr.
      * exists 0. cbn [fst snd take omap list_omap]. rewrite app_nil_r.
        split; [lia|]. split; [constructor|]. split; [done|]. by exists link.
      * assert (Hlink : href_parses link) by (intros _; by exists r).
        rewrite Hpw.
        destruct (negb (netloc r =? netloc pw)%string
                  && bool_decide (netloc r ∈ domains)) eqn:Hk.
        -- destruct (IH (acc ++ [geturl r])) as (n & Hn & Hall & Hfst & Hsnd).
           exists (S n). cbn [length take omap list_omap]. unfold keeps at 1.
           rewrite Hc, Hr, Hk. split; [lia|]. split; [by constructor|]. split.
           ++ rewrite Hfst. by rewrite <- app_assoc.
           ++ shift_failure Hsnd.
        -- destruct (IH acc) as (n & Hn & Hall & Hfst & Hsnd).
           exists (S n). cbn [length take omap list_omap]. unfold keeps at 1.
           rewrite Hc, Hr, Hk. split; [lia|]. split; [by constructor|].
           split; [exact Hfst|shift_failure Hsnd].
    + assert (Hlink : href_parses link) by (intros H; congruence).
      destruct (IH acc) as (n & Hn & Hall & Hfst & Hsnd).
      exists (S n). cbn [length take omap list_omap]. unfold keeps at 1.
      rewrite Hc. split; [lia|]. split; [by constructor|].
      split; [exact Hfst|shift_failure Hsnd].
Qed.

(** X4: on a page that is fetched and parsed, the extractor walks the
    anchors in order up to the first candidate href that [urlparse] rejects:
    no anchor before position [n] is rejected, the result is the kept links
    of those [n] anchors, and either [n] is the number of anchors and
    nothing is printed, or the anchor at position [n] is rejected, its
    exception is printed once and the anchors after it are ignored. *)
Theorem get_external_links_stops_at_rejected_href
    w url (domains : gset string) t html soup pw :
  fetch_with_retries (net w) url default_retries default_backoff_factor
    = (t, inr (Some html)) ->
  BeautifulSoup w html = inr soup ->
  urlparse url = inr pw ->
  exists n,
    n <= length (find_all "a" soup) /\
    Forall href_parses (take n (find_all "a" soup)) /\
    result_of (get_external_links w url domains) =
      inr (omap (keeps (netloc pw) domains) (take n (find_all "a" soup))) /\
    ((n = length (find_all "a" soup) /\
      trace_of (get_external_links w url domains) = t) \/
     (exists link e,
         find_all "a" soup !! n = Some link /\
         href_candidate (tag_get link "href") = true /\
         urlparse (default EmptyString (tag_get link "href")) = inl e /\
         trace_of (get_external_links w url domains) = t ++ [EvPrint url e])).
Proof.
  intros Hf Hp Hpw. unfold get_external_links, result_of, trace_of.
  rewrite (fetched_and_parsed w url t html soup Hf Hp).
  destruct (links_loop_prefix url pw domains Hpw (find_all "a" soup) [])
    as (n & Hn & Hall & Hfst & Hsnd).
  exists n. split; [exact Hn|]. split; [exact Hall|].
  destruct (links_loop url domains (find_all "a" soup) []) as [links [e|]];
    cbn [fst snd] in *; subst links.
  - split; [reflexivity|]. right. destruct Hsnd as (link & Hl & Hc & Hr).
    by exists link, e.
  - split; [reflexivity|]. by left.
Qed.

Lemma get_external_links_stops_at_rejected_href_witness :
  exists n,
    n <= length (find_all "a"
                   (anchors_page ["https://b.com/z"; "http://[bad]/"; "https://b.com/w"])) /\
    Forall href_parses
      (take n (find_all "a"
                 (anchors_page ["https://b.com/z"; "http://[bad]/"; "https://b.com/w"]))) /\
    result_of (get_external_links
                 (static_world
                    (anchors_page ["https://b.com/z"; "http://[bad]/"; "https://b.com/w"]))
                 "https://a.com/x" ab_domains) =
      inr (omap (keeps "a.com" ab_domains)
             (take n (find_all "a"
                (anchors_page ["https://b.com/z"; "http://[bad]/"; "https://b.com/w"])))).
Proof.
  destruct (get_external_links_stops_at_rejected_href
              (static_world
                 (anchors_page ["https://b.com/z"; "http://[bad]/"; "https://b.com/w"]))
              "https://a.com/x" ab_domains [EvGet "https://a.com/x"] "https://a.com/x"
              (anchors_page ["https://b.com/z"; "http://[bad]/"; "https://b.com/w"])
              (mkParseResult "https" "a.com" "/x" "" "" "")
              eq_refl eq_refl eq_refl) as (n & Hn & Hall & Hres & _).
  exists n. split; [exact Hn|]. split; [exact Hall|exact Hres].
Defined.

(** What holds of every link the loop appends. *)
Lemma links_loop_sound url (domains : gset string) (P : string -> Prop) :
  (forall h r pw,
      contains "http" h = true -> urlparse h = inr r -> urlparse url = inr pw ->
      netloc r <> netloc pw -> netloc r ∈ domains -> P (geturl r)) ->
  forall (all_links : list tag) (acc : list string),
    Forall P acc -> Forall P (fst (links_loop url domains all_links acc)).
Proof.
  intros HP. induction all_links as [|link rest IH]; intros acc Hacc; [done|].
  cbn [links_loop]. destruct (tag_get link "href") as [h|] eqn:Hh; [|by apply IH].
  cbn [href_candidate default from_option id].
  destruct (truthy h && contains "http" h) eqn:Hc; [|by apply IH].
  apply andb_prop in Hc as [_ Hc].
  destruct (urlparse h) as [e|r] eqn:Hr; [done|].
  destruct (urlparse url) as [e|pw] eqn:Hpw; [done|].
  destruct (negb (netloc r =? netloc pw)%string
            && bool_decide (netloc r ∈ domains)) eqn:Hk; [|by apply IH].
  apply andb_prop in Hk as [Hne Hmem].
  apply negb_true_iff, String.eqb_neq in Hne. apply bool_decide_eq_true_1 in Hmem.
  apply IH. apply Forall_app. split; [done|]. constructor; [|constructor].
  by apply (HP h r pw).
Qed.

Lemma get_external_links_sound w url (domains : gset string) (P : string -> Prop) :
  (forall h r pw,
      contains "http" h = true -> urlparse h = inr r -> urlparse url = inr pw ->
      netloc r <> netloc pw -> netloc r ∈ domains -> P (geturl r)) ->
  Forall P (links_of (get_external_links w url domains)).
Proof.
  intros HP. unfold links_of, result_of, get_external_links.
  destruct (let* html_content := _ in _) as [t [e|soup]]; [constructor|].
  pose proof (links_loop_sound url domains P HP (find_all "a" soup) []
                (Forall_nil_2 _)) as H.
  destruct (links_loop _ _ _ _) as [links [e|]]; exact H.
Qed.

(** What holds of every link the loop appends, with the anchor it comes
    from. *)
Lemma links_loop_from_anchors url (domains : gset string) (anchors : list tag)
    (P : string -> Prop) :
  (forall link h r pw,
      link ∈ anchors -> tag_get link "href" = Some h ->
      contains "http" h = true -> urlparse h = inr r -> urlparse url = inr pw ->
      netloc r <> netloc pw -> netloc r ∈ domains -> P (geturl r)) ->
  forall (all_links : list tag) (acc : list string),
    (forall link, link ∈ all_links -> link ∈ anchors) ->
    Forall P acc -> Forall P (fst (links_loop url domains all_links acc)).
Proof.
  intros HP. induction all_links as [|link rest IH]; intros acc Hsub Hacc; [done|].
  assert (Hrest : forall l, l ∈ rest -> l ∈ anchors).
  { intros l Hl. apply Hsub. by apply list_elem_of_further. }
  cbn [links_loop]. destruct (tag_get link "href") as [h|] eqn:Hh; [|by apply IH].
  cbn [href_candidate default from_option id].
  destruct (truthy h && contains "http" h) eqn:Hc; [|by apply IH].
  apply andb_prop in Hc as [_ Hc].
  destruct (urlparse h) as [e|r] eqn:Hr; [done|].
  destruct (urlparse url) as [e|pw] eqn:Hpw; [done|].
  destruct (negb (netloc r =? netloc pw)%string
            && bool_decide (netloc r ∈ domains)) eqn:Hk; [|by apply IH].
  apply andb_prop in Hk as [Hne Hmem].
  apply negb_true_iff, String.eqb_neq in Hne. apply bool_decide_eq_true_1 in Hmem.
  apply IH; [done|]. apply Forall_app. split; [done|]. constructor; [|constructor].
  apply (HP link h r pw); auto. apply Hsub, list_elem_of_here.
Qed.

Lemma get_external_links_from_page w url (domains : gset string) (P : string -> Prop) :
  (forall t html soup link h r pw,
      fetch_with_retries (net w) url default_retries default_backoff_factor
        = (t, inr (Some html)) ->
      BeautifulSoup w html = inr soup ->
      link ∈ find_all "a" soup -> tag_get link "href" = Some h ->
      contains "http" h = true -> urlparse h = inr r -> urlparse url = inr pw ->
      netloc r <> netloc pw -> netloc r ∈ domains -> P (geturl r)) ->
  Forall P (links_of (get_external_links w url domains)).
Proof.
  intros HP. unfold links_of, result_of, get_external_links, bind.
  destruct (fetch_with_retries (net w) url default_retries default_backoff_factor)
    as [t [e|[html|]]] eqn:Hf; cbn [make_soup lift raise]; try constructor.
  destruct (BeautifulSoup w html) as [e|soup] eqn:Hp; [constructor|].
  pose proof (links_loop_from_anchors url domains (find_all "a" soup) P
                (fun link h r pw => HP t html soup link h r pw eq_refl Hp)
                (find_all "a" soup) [] (fun _ H => H) (Forall_nil_2 _)) as H.
  destruct (links_loop _ _ _ _) as [links [e|]]; exact H.
Qed.

(** X5: whatever the page and whether or not the extraction fails, every
    URL in the returned list comes from the fetched page: it is the
    re-assembled form of the href of one of its anchors, an href that
    contains "http", whose netloc is in the known set and is not the netloc
    of the page. *)
Theorem get_external_links_only_known_foreign
    (w : world) (url : string) (domains : gset string) (u : string) :
  u ∈ links_of (get_external_links w url domains) ->
  exists t html soup link h r pw,
    fetch_with_retries (net w) url default_retries default_backoff_factor
      = (t, inr (Some html)) /\
    BeautifulSoup w html = inr soup /\
    link ∈ find_all "a" soup /\ tag_get link "href" = Some h /\
    contains "http" h = true /\ urlparse h = inr r /\ u = geturl r /\
    urlparse url = inr pw /\ netloc r <> netloc pw /\ netloc r ∈ domains.
Proof.
  intros Hu.
  pose proof (get_external_links_from_page w url domains
    (fun u => exists t html soup link h r pw,
        fetch_with_retries (net w) url default_retries default_backoff_factor
          = (t, inr (Some html)) /\
        BeautifulSoup w html = inr soup /\
        link ∈ find_all "a" soup /\ tag_get link "href" = Some h /\
        contains "http" h = true /\ urlparse h = inr r /\ u = geturl r /\
        urlparse url = inr pw /\ netloc r <> netloc pw /\ netloc r ∈ domains)) as H.
  rewrite Forall_forall in H. apply H; [|done].
  intros t html soup link h r pw ? ? ? ? ? ? ? ? ?.
  by exists t, html, soup, link, h, r, pw.
Qed.

Lemma get_external_links_only_known_foreign_witness :
  exists t html soup link h r pw,
    fetch_with_retries (net two_sites) "https://a.com/x" default_retries
      default_backoff_factor = (t, inr (Some html)) /\
    BeautifulSoup two_sites html = inr soup /\
    link ∈ find_all "a" soup /\ tag_get link "href" = Some h /\
    contains "http" h = true /\ urlparse h = inr r /\ "https://b.com/z" = geturl r /\
    urlparse "https://a.com/x" = inr pw /\ netloc r <> netloc pw /\
    netloc r ∈ ab_domains.
Proof.
  apply (get_external_links_only_known_foreign two_sites "https://a.com/x" ab_domains
           "https://b.com/z").
  vm_compute. apply list_elem_of_here.
Defined.

(** ** process_search_results *)

Lemma search_result_domains_char (urls : list string) :
  match search_result_domains urls with
  | inr domains =>
      Forall parses urls /\
      forall d : string,
        d ∈ domains <-> exists url r, url ∈ urls /\ urlparse url = inr r /\ netloc r = d
  | inl e =>
      exists i url,
        urls !! i = Some url /\ urlparse url = inl e /\
        Forall parses (take i urls)
  end.
Proof.
  induction urls as [|url urls IH]; cbn [search_result_domains].
  - split; [constructor|]. intros d. split; [set_solver|].
    intros (url & r & Hin & _). by apply not_elem_of_nil in Hin.
  - destruct (urlparse url) as [e|r] eqn:Hr.
    + exists 0, url. repeat split; auto.
    + destruct (search_result_domains urls) as [e|domains].
      * destruct IH as (i & u & Hi & Hu & Hpre).
        exists (S i), u. repeat split; auto. cbn [take].
        constructor; [by exists r|done].
      * destruct IH as [Hall IH]. split; [constructor; [by exists r|done]|].
        intros d. rewrite elem_of_union, elem_of_singleton, IH. split.
        -- intros [->|(u & r' & Hin & Hu & Hd)].
           ++ exists url, r. split; [apply list_elem_of_here|done].
           ++ exists u, r'. split; [by apply list_elem_of_further|done].
        -- intros (u & r' & Hin & Hu & Hd). apply elem_of_cons in Hin as [->|Hin].
           ++ left. congruence.
           ++ right. by exists u, r'.
Qed.


Lemma search_result_domains_elem (urls : list string) (domains : gset string) d :
  search_result_domains urls = inr domains ->
  d ∈ domains ->
  exists url r, url ∈ urls /\ urlparse url = inr r /\ netloc r = d.
Proof.
  intros Hd Hin. pose proof (search_result_domains_char urls) as H.
  rewrite Hd in H. destruct H as [_ H]. by apply H.
Qed.

Lemma crawl_setup_inr urls k (domains : gset string) :
  crawl_setup urls k = inr domains ->
  (0 <= k)%Z /\ search_result_domains urls = inr domains.
Proof.
  unfold crawl_setup. destruct (Z.ltb_spec k 0) as [|Hk]; [discriminate|].
  intros Hd. split; [lia|done].
Qed.

(** A returned crawl, taken apart. *)
Lemma process_search_results_inr w urls k schedule rs :
  process_search_results w urls k schedule = Some (inr rs) ->
  exists domains s,
    (0 <= k)%Z /\ search_result_domains urls = inr domains /\
    run w urls domains schedule (crawl_init urls k) = Some s /\
    crawl_inv w urls domains (Z.to_nat k) s /\
    gather (tasks s) = Some (inr rs).
Proof.
  unfold process_search_results.
  destruct (crawl_setup urls k) as [e|domains] eqn:Hsetup; [discriminate|].
  destruct (run w urls domains schedule (crawl_init urls k)) as [s|] eqn:Hrun;
    [|discriminate].
  intros Hg. apply crawl_setup_inr in Hsetup as [Hk Hd].
  exists domains, s. repeat split; auto.
  - by destruct (run_inv w urls domains _ _ _ _ (crawl_init_inv w urls domains k) Hrun).
  - by destruct (run_inv w urls domains _ _ _ _ (crawl_init_inv w urls domains k) Hrun)
      as (_ & ? & _).
  - by destruct (run_inv w urls domains _ _ _ _ (crawl_init_inv w urls domains k) Hrun)
      as (_ & _ & ?).
Qed.

(** X7: when all the URLs of a crawl have the same netloc, every slot of the
    result is empty: a link is kept only if its netloc is in the set of
    result netlocs and differs from the netloc of its page.  In particular
    the crawl of a single URL returns one empty list. *)
Theorem crawl_of_one_domain_is_empty
    (w : world) (urls : list string) (k : Z) (d : string)
    (schedule : list action) (rs : list (list string)) :
  Forall (fun url => exists r, urlparse url = inr r /\ netloc r = d) urls ->
  process_search_results w urls k schedule = Some (inr rs) ->
  rs = replicate (length urls) [].
Proof.
  intros Hone Hres.
  destruct (process_search_results_inr w urls k schedule rs Hres)
    as (domains & s & Hk & Hd & Hrun & (Hlen & _ & Hdone) & Hg).
  assert (Hempty : forall url, url ∈ urls ->
            links_of (get_external_links w url domains) = []).
  { intros url Hin.
    assert (HF : Forall (fun _ => False) (links_of (get_external_links w url domains))).
    { apply get_external_links_sound. intros h r pw _ _ Hpw Hne Hmem.
      destruct (search_result_domains_elem urls domains _ Hd Hmem)
        as (url' & r' & Hin' & Hr' & Heq).
      rewrite Forall_forall in Hone.
      destruct (Hone url Hin) as (p & Hp & Hpd).
      destruct (Hone url' Hin') as (p' & Hp' & Hpd').
      congruence. }
    destruct (links_of (get_external_links w url domains)) as [|u us]; [done|].
    by inversion HF. }
  assert (Hout : inr rs = (inr (map (fun _ : string => []) urls)
                            : exn + list (list string))).
  { apply (gather_slots (fun _ => []) urls (tasks s) (inr rs) Hlen); [|exact Hg].
    intros i url r Hu Ht. rewrite (Hdone i url r Hu Ht). unfold slot.
    rewrite get_external_links_links_of. f_equal. apply Hempty.
    by eapply list_elem_of_lookup_2. }
  injection Hout as ->. clear. induction urls as [|u us IH]; [done|].
  simpl. by rewrite IH.
Qed.

Lemma crawl_of_one_domain_is_empty_witness :
  process_search_results
    (static_world (anchors_page ["https://a.com/y"; "https://b.com/z"]))
    ["https://a.com/x"; "https://a.com/other"] 2
    [Acquire 0; Acquire 1; Finish 1; Finish 0] = Some (inr [[]; []]) /\
  [[]; []] = replicate (length ["https://a.com/x"; "https://a.com/other"])
               ([] : list string).
Proof.
  split; [reflexivity|].
  apply (crawl_of_one_domain_is_empty
           (static_world (anchors_page ["https://a.com/y"; "https://b.com/z"]))
           ["https://a.com/x"; "https://a.com/other"] 2 "a.com"
           [Acquire 0; Acquire 1; Finish 1; Finish 0] [[]; []]).
  - repeat constructor; eexists; split; reflexivity.
  - reflexivity.
Defined.

Lemma run_app w urls (domains : gset string) (s1 s2 : list action) s :
  run w urls domains (s1 ++ s2) s =
    match run w urls domains s1 s with
    | Some s' => run w urls domains s2 s'
    | None => None
    end.
Proof.
  revert s. induction s1 as [|a s1 IH]; intros s; [reflexivity|].
  cbn [app run]. destruct (step w urls domains a s); [apply IH|reflexivity].
Qed.

(** With no free slot and nobody running, nothing can happen. *)
Lemma step_blocked w urls (domains : gset string) a n lg :
  step w urls domains a (mkCrawl 0 (replicate n Waiting) lg) = None.
Proof.
  destruct a as [i|i]; cbn [step tasks sem_value].
  - destruct (replicate n Waiting !! i) as [[| |]|]; reflexivity.
  - destruct (replicate n Waiting !! i) as [t|] eqn:Hi; [|reflexivity].
    apply lookup_replicate in Hi as [-> _]. reflexivity.
Qed.

(** X8: with at least one URL and a limit that is not positive, the crawl
    never hands out a result: a negative limit is refused by the semaphore,
    and with limit 0 no task is ever admitted, so [gather] never returns. *)
Theorem crawl_needs_positive_limit
    (w : world) (urls : list string) (k : Z)
    (schedule : list action) (rs : list (list string)) :
  urls <> [] -> (k <= 0)%Z ->
  process_search_results w urls k schedule <> Some (inr rs).
Proof.
  intros Hne Hk Hres.
  destruct (process_search_results_inr w urls k schedule rs Hres)
    as (domains & s & Hk0 & _ & Hrun & _ & Hg).
  assert (k = 0%Z) as -> by lia. unfold crawl_init in Hrun. simpl in Hrun.
  destruct schedule as [|a rest]; cbn [run] in Hrun.
  - injection Hrun as <-. cbn [tasks] in Hg.
    destruct urls as [|u us]; [done|]. discriminate.
  - by rewrite step_blocked in Hrun.
Qed.

Lemma crawl_needs_positive_limit_witness :
  process_search_results two_sites ["https://a.com/x"] 0 [Acquire 0] <> Some (inr [[]]).
Proof.
  apply (crawl_needs_positive_limit two_sites ["https://a.com/x"] 0 [Acquire 0] [[]]);
    [discriminate|lia].
Defined.

Lemma filter_insert_length {A} (f : A -> bool) (l : list A) (i : nat) (old new : A) :
  l !! i = Some old ->
  length (List.filter f (<[i := new]> l)) + (if f old then 1 else 0)
  = length (List.filter f l) + (if f new then 1 else 0).
Proof.
  revert i. induction l as [|t l IH]; intros i Hi; [done|].
  destruct i as [|i]; simpl in *.
  - injection Hi as ->. destruct (f old), (f new); simpl; lia.
  - specialize (IH i Hi). destruct (f t); simpl; lia.
Qed.

Lemma filter_nonempty_lookup {A} (f : A -> bool) (l : list A) :
  0 < length (List.filter f l) -> exists i t, l !! i = Some t /\ f t = true.
Proof.
  induction l as [|t l IH]; simpl; [lia|].
  destruct (f t) eqn:Hf.
  - intros _. by exists 0, t.
  - intros H. destruct (IH H) as (i & t' & Hi & Ht). by exists (S i), t'.
Qed.

Lemma filter_empty_lookup {A} (f : A -> bool) (l : list A) i t :
  length (List.filter f l) = 0 -> l !! i = Some t -> f t = false.
Proof.
  revert i. induction l as [|x l IH]; intros i; [done|]. simpl.
  destruct (f x) eqn:Hf; [simpl; lia|].
  destruct i as [|i]; simpl; [by intros _ [= <-]|eauto].
Qed.

Section Liveness.
Variable w : world.
Variable urls : list string.
Variable domains : gset string.
Local Abbreviation crawl_inv := (crawl_inv w urls domains).

(** A running task can always finish. *)
Lemma finish_running limit s i :
  crawl_inv limit s -> tasks s !! i = Some Running ->
  exists s', step w urls domains (Finish i) s = Some s' /\
             crawl_inv limit s' /\ S (pending s') = pending s.
Proof.
  intros Hinv Hi. pose proof Hinv as (Hlen & _ & _).
  destruct (lookup_lt_is_Some_2 urls i) as [url Hu].
  { rewrite <- Hlen. eauto using lookup_lt_Some. }
  assert (Hstep : exists s', step w urls domains (Finish i) s = Some s' /\
                             tasks s' = <[i := Done (slot w domains url)]> (tasks s)).
  { cbn [step]. rewrite Hi, Hu. unfold slot.
    destruct (get_external_links w url domains) as [t r]. by eexists. }
  destruct Hstep as (s' & Hstep & Ht). exists s'. split; [exact Hstep|].
  split; [by eapply step_inv|]. unfold pending. rewrite Ht.
  pose proof (filter_insert_length (fun t => negb (is_done t)) (tasks s) i
                Running (Done (slot w domains url)) Hi) as H.
  simpl in H. lia.
Qed.

(** A waiting task is admitted when nobody is running. *)
Lemma acquire_when_idle limit s i :
  0 < limit -> crawl_inv limit s -> in_flight s = 0 ->
  tasks s !! i = Some Waiting ->
  exists s', step w urls domains (Acquire i) s = Some s' /\
             crawl_inv limit s' /\ tasks s' !! i = Some Running /\
             pending s' = pending s.
Proof.
  intros Hlimit Hinv Hidle Hi. pose proof Hinv as (_ & Hsem & _).
  destruct (sem_value s) as [|v] eqn:Hv; [lia|].
  assert (Hstep : step w urls domains (Acquire i) s
                  = Some (mkCrawl v (<[i := Running]> (tasks s)) (log s))).
  { cbn [step]. by rewrite Hi, Hv. }
  eexists. split; [exact Hstep|]. split; [by eapply step_inv|]. cbn [tasks]. split.
  - apply list_lookup_insert_eq. eauto using lookup_lt_Some.
  - unfold pending. cbn [tasks].
    pose proof (filter_insert_length (fun t => negb (is_done t)) (tasks s) i
                  Waiting Running Hi) as H.
    simpl in H. lia.
Qed.

Lemma crawl_progress limit :
  0 < limit ->
  forall (m : nat) s,
    pending s <= m -> crawl_inv limit s ->
    exists more s',
      run w urls domains more s = Some s' /\ crawl_inv limit s' /\ pending s' = 0.
Proof.
  intros Hlimit. induction m as [|m IH]; intros s Hm Hinv.
  - exists [], s. split; [done|]. split; [done|lia].
  - destruct (Nat.eq_dec (pending s) 0) as [Hz|Hnz].
    { exists [], s. split; [done|]. split; done. }
    destruct (Nat.eq_dec (in_flight s) 0) as [Hidle|Hbusy].
    + destruct (filter_nonempty_lookup (fun t => negb (is_done t)) (tasks s))
        as (i & t & Hi & Ht); [unfold pending in Hnz; lia|].
      assert (t = Waiting) as ->.
      { destruct t as [| |r]; [done| |done].
        pose proof (filter_empty_lookup is_running (tasks s) i Running Hidle Hi).
        discriminate. }
      destruct (acquire_when_idle limit s i Hlimit Hinv Hidle Hi)
        as (s1 & Hs1 & Hinv1 & Hrun1 & Hp1).
      destruct (finish_running limit s1 i Hinv1 Hrun1) as (s2 & Hs2 & Hinv2 & Hp2).
      destruct (IH s2) as (more & s' & Hrun & Hinv' & Hp'); [lia|done|].
      exists (Acquire i :: Finish i :: more), s'. cbn [run]. rewrite Hs1, Hs2.
      split; [done|]. split; done.
    + destruct (filter_nonempty_lookup is_running (tasks s))
        as (i & t & Hi & Ht); [unfold in_flight in Hbusy; lia|].
      assert (t = Running) as -> by (by destruct t).
      destruct (finish_running limit s i Hinv Hi) as (s2 & Hs2 & Hinv2 & Hp2).
      destruct (IH s2) as (more & s' & Hrun & Hinv' & Hp'); [lia|done|].
      exists (Finish i :: more), s'. cbn [run]. rewrite Hs2.
      split; [done|]. split; done.
Qed.

(** Once nothing is pending, [gather] returns the slots in task order. *)
Lemma gather_when_done limit s :
  crawl_inv limit s -> pending s = 0 ->
  gather (tasks s) =
    Some (inr (map (fun url => links_of (get_external_links w url domains)) urls)).
Proof.
  intros (Hlen & _ & Hdone) Hp.
  assert (Hts : tasks s =
    map (fun url => Done (inr (links_of (get_external_links w url domains)))) urls).
  { apply list_eq. intros i. change (map ?f ?l) with (f <$> l).
    rewrite list_lookup_fmap.
    destruct (tasks s !! i) as [t|] eqn:Hi.
    - destruct (lookup_lt_is_Some_2 urls i) as [url Hu].
      { rewrite <- Hlen. eauto using lookup_lt_Some. }
      rewrite Hu. cbn. f_equal.
      pose proof (filter_empty_lookup _ _ _ _ Hp Hi) as Hd.
      destruct t as [| |r]; try discriminate.
      rewrite (Hdone i url r Hu Hi). unfold slot.
      by rewrite get_external_links_links_of.
    - apply lookup_ge_None in Hi. rewrite Hlen in Hi.
      apply lookup_ge_None in Hi. by rewrite Hi. }
  rewrite Hts. apply gather_all_done.
Qed.
End Liveness.

(** X9: with a limit of at least 1 the crawl cannot get stuck: whatever the
    event loop has done so far, the schedule can be continued so that every
    task finishes and [gather] returns the link lists in input order. *)
Theorem crawl_can_always_finish
    (w : world) (urls : list string) (k : Z) (domains : gset string)
    (schedule : list action) (s : crawl_state) :
  (1 <= k)%Z ->
  crawl_setup urls k = inr domains ->
  run w urls domains schedule (crawl_init urls k) = Some s ->
  exists more,
    process_search_results w urls k (schedule ++ more) =
      Some (inr (map (fun url => links_of (get_external_links w url domains)) urls)).
Proof.
  intros Hk Hsetup Hrun.
  pose proof (run_inv w urls domains _ _ _ _ (crawl_init_inv w urls domains k) Hrun)
    as Hinv.
  destruct (crawl_progress w urls domains (Z.to_nat k) ltac:(lia) (pending s) s
              (le_n _) Hinv) as (more & s' & Hmore & Hinv' & Hp).
  exists more. unfold process_search_results. rewrite Hsetup, run_app, Hrun, Hmore.
  by apply (gather_when_done w urls domains (Z.to_nat k)).
Qed.

Lemma crawl_can_always_finish_witness :
  exists more,
    process_search_results two_sites ["https://a.com/x"; "https://b.com/"] 1
      ([Acquire 1] ++ more) =
    Some (inr (map (fun url => links_of (get_external_links two_sites url ab_domains))
                 ["https://a.com/x"; "https://b.com/"])).
Proof.
  apply (crawl_can_always_finish two_sites ["https://a.com/x"; "https://b.com/"] 1
           ab_domains [Acquire 1] (mkCrawl 0 [Waiting; Running] [])).
  - lia.
  - vm_compute. reflexivity.
  - reflexivity.
Defined.

(** ** scrape_google_search_results *)

(** What holds of every link the scraper's loop appends. *)
Lemma results_loop_sound (exclude_websites : list string) (P : string -> Prop) :
  (forall link r,
      urlparse link = inr r -> excluded exclude_websites (geturl r) = false -> P link) ->
  forall (search_results : list tag) (acc links : list string),
    Forall P acc ->
    snd (results_loop exclude_websites search_results acc) = inr links ->
    Forall P links.
Proof.
  intros HP. induction search_results as [|result rest IH]; intros acc links Hacc Hres.
  - simpl in Hres. by injection Hres as <-.
  - cbn [results_loop] in Hres. unfold primary_link in Hres.
    destruct (find "a" result) as [a|]; [|discriminate].
    destruct (tag_get a "href") as [link|]; [|discriminate].
    unfold ret at 1 in Hres. rewrite snd_bind_pure in Hres.
    destruct (urlparse link) as [e|r] eqn:Hr; [discriminate|].
    unfold lift in Hres. rewrite snd_bind_pure in Hres.
    destruct (excluded exclude_websites (geturl r)) eqn:Hex; cbn [negb] in Hres.
    + rewrite snd_bind_emit in Hres. eauto.
    + apply (IH (acc ++ [link]) links); [|done].
      apply Forall_app. split; [done|]. constructor; [eauto|constructor].
Qed.

Lemma scrape_sound w query num_results lang exclude_websites (P : string -> Prop) links :
  (forall link r,
      urlparse link = inr r -> excluded exclude_websites (geturl r) = false -> P link) ->
  result_of (scrape_google_search_results w query num_results lang exclude_websites)
    = inr links ->
  Forall P links.
Proof.
  intros HP. unfold scrape_google_search_results, result_of, try_except, bind.
  destruct (fetch_with_retries _ _ _ _) as [t [e|html_content]].
  - intros H. injection H as <-. constructor.
  - destruct (make_soup w html_content) as [t1 [e|soup]].
    + intros H. injection H as <-. constructor.
    + pose proof (results_loop_sound exclude_websites P HP
                    (find_all_class "div" "tF2Cxc" soup) []) as Hloop.
      destruct (results_loop _ _ _) as [t2 [e|ls]].
      * intros H. injection H as <-. constructor.
      * intros H. injection H as <-. apply Hloop; [constructor|reflexivity].
Qed.

(** X10: whatever the network and the page, no URL that the scraper returns
    contains an exclude substring in its re-assembled form, and every
    returned URL is one that [urlparse] accepts. *)
Theorem scrape_returns_no_excluded_url
    (w : world) (query : string) (num_results : Z) (lang : string)
    (exclude_websites links : list string) (link : string) :
  result_of (scrape_google_search_results w query num_results lang exclude_websites)
    = inr links ->
  link ∈ links ->
  parses link /\
  forall website, website ∈ exclude_websites ->
                  contains website (reassembled link) = false.
Proof.
  intros Hres Hin.
  pose proof (scrape_sound w query num_results lang exclude_websites
    (fun link => parses link /\
       forall website, website ∈ exclude_websites ->
                       contains website (reassembled link) = false) links) as H.
  rewrite Forall_forall in H. apply H; [|done|done].
  intros l r Hr Hex. split; [by exists r|]. intros website Hw.
  unfold reassembled. rewrite Hr. unfold excluded in Hex.
  destruct (contains website (geturl r)) eqn:Hc; [|done].
  assert (existsb (fun website => contains website (geturl r)) exclude_websites = true);
    [|congruence].
  apply existsb_exists. exists website. split; [|done].
  by apply list_elem_of_In.
Qed.

Lemma scrape_returns_no_excluded_url_witness :
  parses "https://a.com/x" /\
  forall website, website ∈ ["spam.com"] ->
                  contains website (reassembled "https://a.com/x") = false.
Proof.
  apply (scrape_returns_no_excluded_url
           (static_world (serp_page
              ["https://a.com/x"; "https://spam.com/1"; "https://b.com/spam.com"]))
           "q" 10 "us" ["spam.com"] ["https://a.com/x"] "https://a.com/x").
  - reflexivity.
  - apply list_elem_of_here.
Defined.

(** X11: the scraper and the crawl compose: for a limit of at least 1, the
    crawl over whatever list the scraper returned does not raise while it
    builds its domain set, and it has a schedule under which it returns one
    link list per scraped URL. *)
Theorem crawl_accepts_scraper_output
    (w w' : world) (query : string) (num_results : Z) (lang : string)
    (exclude_websites links : list string) (k : Z) :
  (1 <= k)%Z ->
  result_of (scrape_google_search_results w query num_results lang exclude_websites)
    = inr links ->
  exists domains schedule rs,
    crawl_setup links k = inr domains /\
    process_search_results w' links k schedule = Some (inr rs) /\
    length rs = length links.
Proof.
  intros Hk Hres.
  destruct (search_result_domains_ok links
              (scrape_results_parse w query num_results lang exclude_websites links Hres))
    as [domains Hd].
  assert (Hsetup : crawl_setup links k = inr domains).
  { unfold crawl_setup. destruct (Z.ltb_spec k 0); [lia|done]. }
  destruct (crawl_progress w' links domains (Z.to_nat k) ltac:(lia)
              (pending (crawl_init links k)) (crawl_init links k) (le_n _)
              (crawl_init_inv w' links domains k)) as (schedule & s' & Hrun & Hinv & Hp).
  exists domains, schedule. eexists. split; [exact Hsetup|]. split.
  - unfold process_search_results. rewrite Hsetup, Hrun.
    by apply (gather_when_done w' links domains (Z.to_nat k)).
  - by rewrite length_map.
Qed.

Lemma crawl_accepts_scraper_output_witness :
  exists domains schedule rs,
    crawl_setup ["https://a.com/x"] 1 = inr domains /\
    process_search_results two_sites ["https://a.com/x"] 1 schedule = Some (inr rs) /\
    length rs = length ["https://a.com/x"].
Proof.
  apply (crawl_accepts_scraper_output
           (static_world (serp_page
              ["https://a.com/x"; "https://spam.com/1"; "https://b.com/spam.com"]))
           two_sites "q" 10 "us" ["spam.com"] ["https://a.com/x"] 1).
  - lia.
  - reflexivity.
Defined.

Lemma contains_empty (s : string) : contains EmptyString s = true.
Proof. by destruct s. Qed.

(** One round of the scraper's loop, by result. *)
Lemma results_loop_cons_snd (exclude_websites : list string) result rest acc :
  snd (results_loop exclude_websites (result :: rest) acc) =
    match snd (primary_link result) with
    | inl e => inl e
    | inr link =>
        match urlparse link with
        | inl e => inl e
        | inr r =>
            if negb (excluded exclude_websites (geturl r))
            then snd (results_loop exclude_websites rest (acc ++ [link]))
            else snd (results_loop exclude_websites rest acc)
        end
    end.
Proof.
  cbn [results_loop]. unfold primary_link.
  destruct (find "a" result) as [a|]; [|reflexivity].
  destruct (tag_get a "href") as [link|]; [|reflexivity].
  unfold ret. rewrite snd_bind_pure. cbn [snd].
  destruct (urlparse link) as [e|r]; [reflexivity|].
  unfold lift. rewrite snd_bind_pure.
  destruct (negb (excluded exclude_websites (geturl r))); [reflexivity|].
  by rewrite snd_bind_emit.
Qed.

Lemma results_loop_all_excluded (exclude_websites : list string) :
  (forall u, excluded exclude_websites u = true) ->
  forall (search_results : list tag) (acc : list string),
    snd (results_loop exclude_websites search_results acc) = inr acc \/
    exists e, snd (results_loop exclude_websites search_results acc) = inl e.
Proof.
  intros Hall. induction search_results as [|result rest IH]; intros acc; [by left|].
  rewrite results_loop_cons_snd.
  destruct (snd (primary_link result)) as [e|link]; [right; by eexists|].
  destruct (urlparse link) as [e|r]; [right; by eexists|].
  rewrite Hall. cbn [negb]. apply IH.
Qed.

(** X12: an exclude list that contains the empty string excludes every
    result, since the empty string is a substring of every URL: the scraper
    then returns the empty list whatever the page holds. *)
Theorem scrape_empty_exclude_text_excludes_all
    (w : world) (query : string) (num_results : Z) (lang : string)
    (exclude_websites : list string) :
  EmptyString ∈ exclude_websites ->
  result_of (scrape_google_search_results w query num_results lang exclude_websites)
    = inr [].
Proof.
  intros Hin.
  assert (Hall : forall u, excluded exclude_websites u = true).
  { intros u. apply existsb_exists. exists EmptyString.
    split; [by apply list_elem_of_In|apply contains_empty]. }
  unfold scrape_google_search_results, result_of, try_except, bind.
  destruct (fetch_with_retries _ _ _ _) as [t [e|html_content]]; [done|].
  destruct (make_soup w html_content) as [t1 [e|soup]]; [done|].
  destruct (results_loop_all_excluded exclude_websites Hall
              (find_all_class "div" "tF2Cxc" soup) []) as [H|[e H]];
    destruct (results_loop _ _ _) as [t2 r]; cbn [snd] in H; by subst r.
Qed.

Lemma scrape_empty_exclude_text_excludes_all_witness :
  result_of (scrape_google_search_results
               (static_world (serp_page ["https://a.com/x"; "https://b.com/y"]))
               "q" 10 "us" ["spam.com"; ""]) = inr [].
Proof.
  apply scrape_empty_exclude_text_excludes_all.
  apply list_elem_of_further, list_elem_of_here.
Defined.

Lemma results_loop_raises_on_bad_result (exclude_websites : list string) bad e :
  snd (primary_link bad) = inl e ->
  forall (search_results : list tag) (acc : list string),
    bad ∈ search_results ->
    exists e', snd (results_loop exclude_websites search_results acc) = inl e'.
Proof.
  intros Hbad. induction search_results as [|result rest IH]; intros acc Hin.
  - by apply not_elem_of_nil in Hin.
  - rewrite results_loop_cons_snd.
    destruct (snd (primary_link result)) as [ep|link] eqn:Hp; [by eexists|].
    assert (Hrest : bad ∈ rest).
    { apply elem_of_cons in Hin as [->|Hin]; [|done]. congruence. }
    destruct (urlparse link) as [e1|r]; [by eexists|].
    destruct (negb (excluded exclude_websites (geturl r))); by apply IH.
Qed.

(** X13: one organic result without a link spoils the whole page: if any
    result container has no anchor, or its first anchor has no href, the
    scraper shows an error and returns the empty list, whatever the other
    results are. *)
Theorem scrape_one_bad_result_empties_all
    (w : world) (query : string) (num_results : Z) (lang : string)
    (exclude_websites : list string) t html soup (bad : tag) :
  fetch_with_retries (net w) (search_url query num_results lang)
    default_retries default_backoff_factor = (t, inr (Some html)) ->
  BeautifulSoup w html = inr soup ->
  bad ∈ find_all_class "div" "tF2Cxc" soup ->
  (find "a" bad = None \/
   exists a, find "a" bad = Some a /\ tag_get a "href" = None) ->
  exists t' e,
    scrape_google_search_results w query num_results lang exclude_websites
      = (t' ++ [EvStError e], inr []).
Proof.
  intros Hf Hp Hin Hbad.
  assert (Hraise : exists e, snd (primary_link bad) = inl e).
  { unfold primary_link. destruct Hbad as [->|(a & -> & ->)]; by eexists. }
  destruct Hraise as [e He].
  destruct (results_loop_raises_on_bad_result exclude_websites bad e He
              (find_all_class "div" "tF2Cxc" soup) [] Hin) as [e' He'].
  unfold scrape_google_search_results, bind. rewrite Hf. cbn [make_soup lift].
  rewrite Hp. cbn beta iota.
  destruct (results_loop exclude_websites (find_all_class "div" "tF2Cxc" soup) [])
    as [t2 r]. cbn [snd] in He'. subst r. cbn [try_except emit bind ret].
  by eexists _, e'.
Qed.

Lemma scrape_one_bad_result_empties_all_witness :
  exists t' e,
    scrape_google_search_results
      (static_world
         (Tag "[document]" []
            [Tag "div" [("class", "tF2Cxc")] [Tag "a" [("href", "https://a.com/x")] []];
             Tag "div" [("class", "tF2Cxc")] [Tag "span" [] []]]))
      "q" 10 "us" [] = (t' ++ [EvStError e], inr []).
Proof.
  apply (scrape_one_bad_result_empties_all
           (static_world
              (Tag "[document]" []
                 [Tag "div" [("class", "tF2Cxc")] [Tag "a" [("href", "https://a.com/x")] []];
                  Tag "div" [("class", "tF2Cxc")] [Tag "span" [] []]]))
           "q" 10 "us" []
           [EvGet "https://www.google.com/search?q=q&num=10&gl=us"]
           "https://www.google.com/search?q=q&num=10&gl=us"
           (Tag "[document]" []
                 [Tag "div" [("class", "tF2Cxc")] [Tag "a" [("href", "https://a.com/x")] []];
                  Tag "div" [("class", "tF2Cxc")] [Tag "span" [] []]])
           (Tag "div" [("class", "tF2Cxc")] [Tag "span" [] []])).
  - reflexivity.
  - reflexivity.
  - vm_compute. apply list_elem_of_further, list_elem_of_here.
  - left. reflexivity.
Defined.

(** ** main_async: the exclude list (app.py 97) *)

Lemma truthy_true (s : string) : truthy s = true <-> s <> EmptyString.
Proof. destruct s; simpl; split; congruence. Qed.

Lemma rstrip_chars_cons (p : ascii -> bool) (a : ascii) (s : string) :
  rstrip_chars p (String a s) =
    match rstrip_chars p s with
    | EmptyString => if p a then EmptyString else String a EmptyString
    | rest => String a rest
    end.
Proof. reflexivity. Qed.

Lemma rstrip_chars_idem (p : ascii -> bool) (s : string) :
  rstrip_chars p (rstrip_chars p s) = rstrip_chars p s.
Proof.
  induction s as [|a s IH]; [reflexivity|]. rewrite rstrip_chars_cons.
  destruct (rstrip_chars p s) as [|b r] eqn:Hr.
  - destruct (p a) eqn:Hp; [reflexivity|]. rewrite rstrip_chars_cons. cbn. by rewrite Hp.
  - rewrite rstrip_chars_cons. by rewrite IH.
Qed.

Lemma lstrip_chars_head (p : ascii -> bool) (s : string) :
  match lstrip_chars p s with
  | EmptyString => True
  | String a _ => p a = false
  end.
Proof.
  induction s as [|a s IH]; [done|]. cbn [lstrip_chars].
  destruct (p a) eqn:Hp; [exact IH|exact Hp].
Qed.

Lemma lstrip_rstrip_of_lstripped (p : ascii -> bool) (t : string) :
  match t with EmptyString => True | String a _ => p a = false end ->
  lstrip_chars p (rstrip_chars p t) = rstrip_chars p t.
Proof.
  destruct t as [|a t]; [reflexivity|]. intros Hp. rewrite rstrip_chars_cons.
  destruct (rstrip_chars p t); rewrite ?Hp; cbn [lstrip_chars]; by rewrite Hp.
Qed.

Lemma strip_idem (s : string) : strip (strip s) = strip s.
Proof.
  unfold strip.
  rewrite (lstrip_rstrip_of_lstripped py_isspace _ (lstrip_chars_head py_isspace s)).
  apply rstrip_chars_idem.
Qed.

Lemma lstrip_chars_all (p : ascii -> bool) (s : string) :
  all_chars p s = true -> lstrip_chars p s = EmptyString.
Proof.
  induction s as [|a s IH]; [reflexivity|]. cbn [all_chars lstrip_chars].
  intros [Hp Hs]%andb_prop. rewrite Hp. auto.
Qed.

Lemma split_on_all (p : ascii -> bool) (c : ascii) (s : string) :
  all_chars p s = true -> Forall (fun x => all_chars p x = true) (split_on c s).
Proof.
  induction s as [|a s IH]; [by repeat constructor|].
  cbn [all_chars split_on]. intros [Hp Hs]%andb_prop. specialize (IH Hs).
  destruct (Ascii.eqb a c); [by constructor|].
  destruct (split_on c s) as [|x xs]; [by repeat constructor; simpl; rewrite Hp|].
  inversion IH; subst. constructor; [|done]. simpl. by rewrite Hp.
Qed.

(** X14: the exclude list built from the text area holds no empty entry and
    only entries without white space at either end, so the empty string,
    which would exclude every result, cannot come from the form; an input
    of white space only gives the empty list. *)
Theorem exclude_websites_of_entries (exclude_input : string) :
  (forall website,
      website ∈ exclude_websites_of exclude_input ->
      website <> EmptyString /\ strip website = website) /\
  (all_chars py_isspace exclude_input = true ->
   exclude_websites_of exclude_input = []).
Proof.
  unfold exclude_websites_of. split.
  - intros website Hin. change (map ?f ?l) with (f <$> l) in Hin.
    apply list_elem_of_fmap in Hin as (line & -> & Hline).
    apply list_elem_of_In, filter_In in Hline as [_ Ht].
    split; [by apply truthy_true|apply strip_idem].
  - intros Hall. pose proof (split_on_all py_isspace newline exclude_input Hall) as HF.
    revert HF. generalize (split_on newline exclude_input). intros lines HF.
    induction HF as [|line lines Hline _ IH]; [reflexivity|].
    assert (strip line = EmptyString) as Hs.
    { unfold strip. by rewrite (lstrip_chars_all _ _ Hline). }
    cbn [List.filter]. rewrite Hs. cbn [truthy]. exact IH.
Qed.

(** ** main_async: the result table (app.py 125-154) *)

Lemma has_char_cons (c a : ascii) (s : string) :
  has_char c (String a s) = Ascii.eqb a c || has_char c s.
Proof.
  unfold has_char. cbn [find_char]. destruct (Ascii.eqb a c); [reflexivity|].
  by destruct (find_char c s).
Qed.

Lemma contains_char (c : ascii) (s : string) :
  contains (String c EmptyString) s = has_char c s.
Proof.
  induction s as [|a s IH]; [reflexivity|].
  rewrite has_char_cons. cbn [contains String.prefix]. rewrite IH.
  destruct (ascii_dec c a) as [->|Hne].
  - rewrite Ascii.eqb_refl. by destruct s.
  - apply not_eq_sym, Ascii.eqb_neq in Hne. by rewrite Hne.
Qed.

Lemma split_on_no_sep (c : ascii) (s : string) :
  has_char c s = false -> split_on c s = [s].
Proof.
  induction s as [|a s IH]; [reflexivity|].
  rewrite has_char_cons. intros [Ha Hs]%orb_false_elim.
  cbn [split_on]. by rewrite Ha, (IH Hs).
Qed.

Lemma split_on_sep (c : ascii) (x rest : string) :
  has_char c x = false ->
  split_on c (x +:+ String c rest) = x :: split_on c rest.
Proof.
  induction x as [|a x IH]; intros Hx.
  - change (EmptyString +:+ String c rest) with (String c rest).
    cbn [split_on]. by rewrite Ascii.eqb_refl.
  - rewrite has_char_cons in Hx. apply orb_false_elim in Hx as [Ha Hx].
    change (String a x +:+ String c rest) with (String a (x +:+ String c rest)).
    cbn [split_on]. by rewrite Ha, (IH Hx).
Qed.

(** Joining lines and splitting them again gives the lines back. *)
Lemma split_on_join_with (c : ascii) (l : list string) :
  l <> [] -> Forall (fun x => has_char c x = false) l ->
  split_on c (join_with (String c EmptyString) l) = l.
Proof.
  induction l as [|x l IH]; [done|]. intros _ HF.
  inversion HF as [|? ? Hx Hl]; subst. destruct l as [|y l].
  - by apply split_on_no_sep.
  - change (join_with (String c EmptyString) (x :: y :: l))
      with (x +:+ String c (join_with (String c EmptyString) (y :: l))).
    rewrite split_on_sep by done. by rewrite IH.
Qed.

Lemma expand_row_lines (position : Z) (url text : string) :
  (if contains (String newline EmptyString) text
   then map (fun link => (position, url, link)) (split_on newline text)
   else [(position, url, text)])
  = map (fun link => (position, url, link)) (split_on newline text).
Proof.
  rewrite contains_char. destruct (has_char newline text) eqn:Hc; [reflexivity|].
  by rewrite split_on_no_sep.
Qed.

(** X15: when no link of the dict has a line break in it, the table before
    the marking of repeated URLs has, for the URL at position [i] (counted
    from [idx]), one row per link in the order of its list, one row "None"
    when the list is empty, and one row "N/A" when the URL is not a key:
    joining the links with line breaks and splitting the cell again loses
    nothing. *)
Theorem expand_rows_of_result_rows
    (urls : list string) (filtered : gmap string (list string)) (idx : Z) :
  (forall url links,
      filtered !! url = Some links ->
      Forall (fun link => has_char newline link = false) links) ->
  expand_rows (result_rows idx urls filtered) =
    mjoin (imap (fun i url =>
                   map (fun link => ((idx + Z.of_nat i)%Z, url, link))
                       (cell_lines (filtered !! url)))
                urls).
Proof.
  intros Hclean. revert idx. induction urls as [|url urls IH]; intros idx; [reflexivity|].
  cbn [result_rows imap mjoin list_join].
  rewrite (imap_ext _ (fun i url =>
             map (fun link => ((idx + 1 + Z.of_nat i)%Z, url, link))
                 (cell_lines (filtered !! url)))).
  2: { intros i u _. cbn. by replace (idx + Z.of_nat (S i))%Z
                               with (idx + 1 + Z.of_nat i)%Z by lia. }
  rewrite <- IH. rewrite Z.add_0_r.
  destruct (filtered !! url) as [[|l ls]|] eqn:Hm; cbn [expand_rows cell_lines].
  - reflexivity.
  - rewrite expand_row_lines. f_equal. f_equal.
    apply split_on_join_with; [done|]. by apply (Hclean url).
  - reflexivity.
Qed.

Lemma expand_rows_of_result_rows_witness :
  expand_rows (result_rows 1 ["u"; "v"; "w"] {[ "u" := ["x"; "y"]; "v" := [] ]}) =
    [(1%Z, "u", "x"); (1%Z, "u", "y"); (2%Z, "v", "None"); (3%Z, "w", "N/A")].
Proof.
  rewrite (expand_rows_of_result_rows ["u"; "v"; "w"] {[ "u" := ["x"; "y"]; "v" := [] ]} 1).
  - reflexivity.
  - intros url links Hl.
    apply lookup_insert_Some in Hl as [[_ <-]|[_ Hl]]; [by repeat constructor|].
    apply lookup_singleton_Some in Hl as [_ <-]. constructor.
Defined.

Lemma mark_repeated_lookup (rows : list row) :
  forall (seen : list string) (i : nat) position url links,
    rows !! i = Some (position, url, links) ->
    mark_repeated seen rows !! i =
      Some (position,
            (if in_list url seen || in_list url (map row_url (take i rows))
             then url +:+ "#" else url),
            links).
Proof.
  induction rows as [|[[p u] l] rows IH]; intros seen i position url links Hi; [done|].
  destruct i as [|i]; cbn [mark_repeated].
  - injection Hi as -> -> ->. cbn. by rewrite orb_false_r.
  - rewrite lookup_cons_ne_0 in Hi |- * by done. cbn [Nat.pred] in Hi |- *.
    etrans; [exact (IH (u :: seen) i position url links Hi)|].
    cbn [take map in_list existsb row_url fst snd]. unfold in_list.
    by destruct (url =? u)%string, (existsb (String.eqb url) seen),
         (existsb (String.eqb url) (map row_url (take i rows))).
Qed.

(** X16: the marking of repeated URLs keeps every row in place with its
    position and its link; the URL of a row is left as it is when no earlier
    row has the same URL and gets "#" appended otherwise, so of the rows of
    one URL exactly the first is unmarked. *)
Theorem mark_repeated_marks_all_but_first
    (rows : list row) (i : nat) (position : Z) (url links : string) :
  rows !! i = Some (position, url, links) ->
  mark_repeated [] rows !! i =
    Some (position,
          (if in_list url (map row_url (take i rows)) then url +:+ "#" else url),
          links) /\
  length (mark_repeated [] rows) = length rows.
Proof.
  intros Hi. split; [by rewrite (mark_repeated_lookup rows [] i position url links Hi)|].
  clear. generalize (@nil string). induction rows as [|[[p u] l] rows IH]; intros seen;
    [reflexivity|].
  cbn [mark_repeated length]. by rewrite IH.
Qed.

Lemma mark_repeated_marks_all_but_first_witness :
  mark_repeated [] [(1%Z, "u", "x"); (1%Z, "u", "y"); (2%Z, "v", "None")] !! 1
  = Some (1%Z, "u#", "y").
Proof.
  apply (mark_repeated_marks_all_but_first
           [(1%Z, "u", "x"); (1%Z, "u", "y"); (2%Z, "v", "None")] 1 1 "u" "y").
  reflexivity.
Defined.

(** ** The request budget of a crawl *)

Lemma fetch_with_retries_gets_le net url retries b :
  gets (fst (fetch_with_retries net url retries b)) <= Z.to_nat retries.
Proof.
  destruct (Z.le_gt_cases retries 0) as [Hr|Hr].
  - unfold fetch_with_retries. replace (Z.to_nat retries) with 0 by lia. simpl. lia.
  - destruct (fetch_with_retries_shape net url retries b) as (n & Hn & Ht & _); [lia|].
    unfold trace_of in Ht. rewrite Ht, gets_app, gets_failed_attempts. simpl. lia.
Qed.

Lemma get_external_links_gets_le w url (domains : gset string) :
  gets (fst (get_external_links w url domains)) <= 3.
Proof.
  pose proof (fetch_with_retries_gets_le (net w) url default_retries
                default_backoff_factor) as Hf.
  change (Z.to_nat default_retries) with 3 in Hf.
  unfold get_external_links, bind.
  destruct (fetch_with_retries (net w) url default_retries default_backoff_factor)
    as [t [e|html_content]]; cbn [fst] in Hf.
  - cbn [fst]. rewrite gets_app. simpl. lia.
  - destruct (make_soup w html_content) as [t1 r1] eqn:Hs.
    assert (t1 = []) as ->.
    { unfold make_soup, lift, raise in Hs. destruct html_content; by injection Hs as <- _. }
    rewrite app_nil_r. destruct r1 as [e|soup].
    + cbn [fst]. rewrite gets_app. simpl. lia.
    + destruct (links_loop _ _ _ _) as [links [e|]]; cbn [fst]; [|lia].
      rewrite gets_app. simpl. lia.
Qed.

Lemma step_requests w urls (domains : gset string) a s s' :
  step w urls domains a s = Some s' ->
  gets (log s') + 3 * pending s' <= gets (log s) + 3 * pending s.
Proof.
  intros Hstep. destruct a as [i|i]; cbn [step] in Hstep.
  - destruct (tasks s !! i) as [[| |]|] eqn:Hi; try discriminate.
    destruct (sem_value s) as [|v]; [discriminate|].
    injection Hstep as <-. unfold pending. cbn [tasks log].
    pose proof (filter_insert_length (fun t => negb (is_done t)) (tasks s) i
                  Waiting Running Hi) as H.
    simpl in H. lia.
  - destruct (tasks s !! i) as [[| |]|] eqn:Hi; try discriminate.
    destruct (urls !! i) as [url|]; [|discriminate].
    pose proof (get_external_links_gets_le w url domains) as Hg.
    destruct (get_external_links w url domains) as [t r]. cbn [fst] in Hg.
    injection Hstep as <-. unfold pending. cbn [tasks log]. rewrite gets_app.
    pose proof (filter_insert_length (fun t => negb (is_done t)) (tasks s) i
                  Running (Done r) Hi) as H.
    simpl in H. lia.
Qed.

Lemma run_requests w urls (domains : gset string) schedule :
  forall s s',
    run w urls domains schedule s = Some s' ->
    gets (log s') + 3 * pending s' <= gets (log s) + 3 * pending s.
Proof.
  induction schedule as [|a rest IH]; intros s s' Hrun; cbn [run] in Hrun.
  - injection Hrun as <-. lia.
  - destruct (step w urls domains a s) as [s1|] eqn:Hstep; [|discriminate].
    pose proof (step_requests w urls domains a s s1 Hstep).
    pose proof (IH s1 s' Hrun). lia.
Qed.

(** X17: whatever the network answers and however the tasks are
    interleaved, a crawl sends at most three requests for each task that has
    finished, hence at most [3 * len(urls)] requests in all. *)
Theorem crawl_request_budget
    (w : world) (urls : list string) (domains : gset string) (k : Z)
    (schedule : list action) (s : crawl_state) :
  run w urls domains schedule (crawl_init urls k) = Some s ->
  gets (log s) + 3 * pending s <= 3 * length urls.
Proof.
  intros Hrun. pose proof (run_requests w urls domains schedule _ _ Hrun) as H.
  assert (Hinit : pending (crawl_init urls k) = length urls).
  { unfold pending, crawl_init. cbn [tasks].
    induction (length urls) as [|n IH]; simpl; auto. }
  rewrite Hinit in H. cbn [crawl_init log gets] in H. lia.
Qed.

Lemma crawl_request_budget_witness :
  gets (log (mkCrawl 1 [Waiting; Done (inr ["https://a.com/x"])] [EvGet "https://b.com/"]))
  + 3 * pending (mkCrawl 1 [Waiting; Done (inr ["https://a.com/x"])]
                         [EvGet "https://b.com/"])
  <= 3 * length ["https://a.com/x"; "https://b.com/"].
Proof.
  apply (crawl_request_budget two_sites ["https://a.com/x"; "https://b.com/"]
           ab_domains 1 [Acquire 1; Finish 1]
           (mkCrawl 1 [Waiting; Done (inr ["https://a.com/x"])] [EvGet "https://b.com/"])).
  reflexivity.
Defined.

Lemma fetch_with_retries_none_iff_witness :
  result_of (fetch_with_retries flaky_net "u" (-1) 2) = inr None.
Proof. apply fetch_with_retries_none_iff. lia. Defined.

Lemma exclude_websites_of_entries_witness :
  exclude_websites_of "   " = [].
Proof. apply (proj2 (exclude_websites_of_entries "   ")). reflexivity. Defined.
